(** * Deep Learning with Time Series: windowing, predictor, training, forecast

    A shallow embedding of the algorithmic cells of the notebook
    [Hands-on lab/Deep Learning with Time Series.ipynb]:

    - the windowing cell ([sample_size], [num_samples], the loop filling
      [input] and [output]);
    - [LSTMPredictor.forward];
    - the training loop;
    - the forecast cell ([final_input], [torch.no_grad], [future_predictions]).

    Python exceptions are results of type [result]; NumPy and PyTorch
    operations the cells call (basic slicing, row assignment with
    broadcasting, [reshape], [chunk], [stack]) are written out with the shape
    checks they perform.  The arithmetic inside the LSTM cells, the loss and
    the optimizer is floating point and stays abstract: the cells are
    parameters of the model. *)

From Stdlib Require Import ZArith Lia List.
From stdpp Require Import base tactics option list.

Local Open Scope Z_scope.

(** ** Python exceptions as results *)

Inductive pyerror : Type :=
| ValueError
| IndexError
| RuntimeError
| UnboundLocalError
| ZeroDivisionError.

Inductive result (A : Type) : Type :=
| Ok (a : A)
| Raise (e : pyerror).

Arguments Ok {A} a.
Arguments Raise {A} e.

Definition bind {A B : Type} (m : result A) (k : A -> result B) : result B :=
  match m with
  | Ok a => k a
  | Raise e => Raise e
  end.

Notation "x <~ m ;; k" := (bind m (fun x => k))
  (at level 100, m at next level, right associativity).

(** [for x in xs: st = body st x], stopping at the first exception. *)
Fixpoint for_each {S X : Type} (body : S -> X -> result S) (xs : list X) (st : S)
  : result S :=
  match xs with
  | [] => Ok st
  | x :: xs' => st' <~ body st x ;; for_each body xs' st'
  end.

(** [range(n)] for an integer [n]: empty when [n <= 0]. *)
Definition range (n : Z) : list Z := Z.of_nat <$> seq 0 (Z.to_nat n).

(** ** NumPy arrays *)

Section Arrays.
Context {A : Type}.

(** Normalisation of one bound of a basic slice with step 1 over a
    dimension of length [len]: a negative bound counts from the end and is
    clamped at 0, a bound past the end is clamped at [len]. *)
Definition adjust_index (len i : Z) : Z :=
  if i <? 0 then (if i + len <? 0 then 0 else i + len)
  else if len <=? i then len
  else i.

(** [l[start:stop]] *)
Definition py_slice (l : list A) (start stop : Z) : list A :=
  let len := Z.of_nat (length l) in
  let lo := adjust_index len start in
  let hi := adjust_index len stop in
  take (Z.to_nat (hi - lo)) (drop (Z.to_nat lo) l).

(** [l[start:]] *)
Definition py_slice_from (l : list A) (start : Z) : list A :=
  let len := Z.of_nat (length l) in
  drop (Z.to_nat (adjust_index len start)) l.

(** A two-dimensional array (or tensor) with its shape. *)
Record ndarray : Type := mk_ndarray {
  shape0 : nat;
  shape1 : nat;
  rows : list (list A)
}.

(** [np.zeros((n, m))] *)
Definition np_zeros (zero : A) (n m : nat) : ndarray :=
  {| shape0 := n; shape1 := m; rows := replicate n (replicate m zero) |}.

(** [a[i] = v] for a one-dimensional [v]: [v] is copied into row [i] when
    its length is the row length, broadcast when it has one element, and
    rejected otherwise. *)
Definition setitem_row (a : ndarray) (i : nat) (v : list A) : result ndarray :=
  if decide (i < shape0 a)%nat then
    if decide (length v = shape1 a) then
      Ok {| shape0 := shape0 a; shape1 := shape1 a; rows := <[i := v]> (rows a) |}
    else
      match v with
      | [x] => Ok {| shape0 := shape0 a; shape1 := shape1 a;
                     rows := <[i := replicate (shape1 a) x]> (rows a) |}
      | _ => Raise ValueError
      end
  else Raise IndexError.

(** [v.reshape(1, m)] for a one-dimensional [v] *)
Definition reshape_1 (v : list A) (m : Z) : result ndarray :=
  if decide (0 <= m /\ Z.of_nat (length v) = m) then
    Ok {| shape0 := 1; shape1 := Z.to_nat m; rows := [v] |}
  else Raise ValueError.

(** Entry [(i, k)] of an array. *)
Definition entry (a : ndarray) (i k : nat) : option A :=
  rows a !! i ≫= (.!! k).
End Arrays.

Arguments ndarray A : clear implicits.

(** ** The windowing cell *)

Definition sample_size : Z := 250.

Section Windowing.
Context {A : Type} (zero : A).

(** The slice assigned to [input[i]] and to [output[i]]. *)
Definition input_window (W : Z) (source : list A) (i : Z) : list A :=
  py_slice source (-(i + 1) * W - 2) (-i * W - 2).

Definition output_window (W : Z) (source : list A) (i : Z) : list A :=
  py_slice source (-(i + 1) * W - 1) (-i * W - 1).

(** One iteration of the loop over [range(num_samples)]. *)
Definition window_body (W : Z) (source : list A)
    (st : ndarray A * ndarray A) (i : Z) : result (ndarray A * ndarray A) :=
  input' <~ setitem_row (fst st) (Z.to_nat i) (input_window W source i) ;;
  output' <~ setitem_row (snd st) (Z.to_nat i) (output_window W source i) ;;
  Ok (input', output').

(** The number of samples, [source.shape[0] // sample_size]. *)
Definition num_samples_of (W : Z) (source : list A) : Z :=
  Z.of_nat (length source) / W.

(** The cell for a window size [W]; the result is the pair
    [(input, output)]. *)
Definition windowing_with (W : Z) (source : list A)
  : result (ndarray A * ndarray A) :=
  if decide (W = 0) then Raise ZeroDivisionError
  else
    let num_samples := num_samples_of W source in
    if decide (num_samples < 0 \/ W < 0) then Raise ValueError
    else
      let input := np_zeros zero (Z.to_nat num_samples) (Z.to_nat W) in
      let output := np_zeros zero (Z.to_nat num_samples) (Z.to_nat W) in
      for_each (window_body W source) (range num_samples) (input, output).

(** The cell as written, with [sample_size = 250]. *)
Definition windowing (source : list A) : result (ndarray A * ndarray A) :=
  windowing_with sample_size source.

(** Whether position [p] of a series of length [len] lies in the slice
    [start:stop]. *)
Definition in_span (len start stop p : Z) : bool :=
  (adjust_index len start <=? p) && (p <? adjust_index len stop).

(** Whether position [p] is copied into window [i], as an input or as an
    output element. *)
Definition window_covers (W len i p : Z) : bool :=
  in_span len (-(i + 1) * W - 2) (-i * W - 2) p
  || in_span len (-(i + 1) * W - 1) (-i * W - 1) p.

(** Whether position [p] is left out of every window. *)
Definition excluded (W len p : Z) : bool :=
  forallb (fun i => negb (window_covers W len i p)) (range (len / W)).

(** Specification device: an [n]-row array of width [W] whose rows
    [0 .. m-1] are [f 0 .. f (m-1)] and whose other rows are still zero. *)
Definition filled (W : Z) (f : Z -> list A) (n m : nat) : ndarray A :=
  {| shape0 := n; shape1 := Z.to_nat W;
     rows := (f <$> range (Z.of_nat m)) ++ replicate (n - m) (replicate (Z.to_nat W) zero) |}.
End Windowing.

(** ** The recurrent predictor *)

Definition hidden_layer1_size : nat := 75.
Definition hidden_layer2_size : nat := 75.

(** The three sub-modules of [LSTMPredictor] as functions of the module's
    parameters.  [nn.LSTMCell] maps an input and a pair (hidden, cell) to the
    next pair; [nn.Linear(hidden_layer2_size, 1)] returns one scalar per batch
    row, a tensor of shape (B, 1) kept as the list of its B scalars.  The
    laws say that a cell keeps the batch dimension of its input. *)
Class Cells (R Params : Type) : Type := {
  lstm1 : Params -> ndarray R -> ndarray R * ndarray R -> ndarray R * ndarray R;
  lstm2 : Params -> ndarray R -> ndarray R * ndarray R -> ndarray R * ndarray R;
  linear : Params -> ndarray R -> list R;
  lstm1_batch : forall p x s, shape0 (fst (lstm1 p x s)) = shape0 x;
  lstm2_batch : forall p x s, shape0 (fst (lstm2 p x s)) = shape0 x;
  linear_batch : forall p h, length (linear p h) = shape0 h
}.

Section Predictor.
Context {R : Type} (zero : R) {Params : Type} `{!Cells R Params}.

(** [t.narrow(1, start, len)]: the columns [start .. start+len-1]. *)
Definition narrow_dim1 (t : ndarray R) (start len : nat) : ndarray R :=
  {| shape0 := shape0 t; shape1 := len;
     rows := (fun r => take len (drop start r)) <$> rows t |}.

(** [t.chunk(chunks, dim=1)]: pieces of [ceil(size / chunks)] columns, the
    last one possibly shorter; a dimension of size 0 gives [chunks] empty
    pieces; [chunks <= 0] is rejected. *)
Definition chunk_dim1 (t : ndarray R) (chunks : Z) : result (list (ndarray R)) :=
  if decide (chunks <= 0) then Raise RuntimeError
  else
    let size := Z.of_nat (shape1 t) in
    let split_size := (size + chunks - 1) / chunks in
    if decide (split_size = 0) then
      Ok (replicate (Z.to_nat chunks) (narrow_dim1 t 0 0))
    else
      let num_splits := Z.max ((size + split_size - 1) / split_size) 1 in
      Ok ((fun j => narrow_dim1 t (Z.to_nat (j * split_size))
                      (Z.to_nat (Z.min split_size (size - j * split_size))))
            <$> range num_splits).

(** A (B, 1) tensor from its B scalars. *)
Definition as_column (v : list R) : ndarray R :=
  {| shape0 := length v; shape1 := 1; rows := (fun x => [x]) <$> v |}.

(** [torch.stack(outputs, 1).squeeze(2)] on a list of (B, 1) tensors: the
    (B, n) tensor whose column [j] is [outputs[j]].  An empty list and
    tensors of different sizes are rejected. *)
Definition stack_columns (outs : list (list R)) : result (ndarray R) :=
  match outs with
  | [] => Raise RuntimeError
  | o :: _ =>
      if decide (Forall (fun o' => length o' = length o) outs) then
        Ok {| shape0 := length o; shape1 := length outs;
              rows := (fun b => omap (.!! b) outs) <$> seq 0 (length o) |}
      else Raise RuntimeError
  end.

(** The local variables of [forward]. *)
Record fwd_state : Type := mk_fwd_state {
  outputs : list (list R);
  h_t : ndarray R;
  c_t : ndarray R;
  h_t2 : ndarray R;
  c_t2 : ndarray R;
  output : option (list R)
}.

(** The three statements both loops share, fed with the step input [x]. *)
Definition cell_step (self : Params) (x : ndarray R) (st : fwd_state) : fwd_state :=
  let hc := lstm1 self x (h_t st, c_t st) in
  let hc2 := lstm2 self (fst hc) (h_t2 st, c_t2 st) in
  let out := linear self (fst hc2) in
  {| outputs := outputs st ++ [out];
     h_t := fst hc; c_t := snd hc; h_t2 := fst hc2; c_t2 := snd hc2;
     output := Some out |}.

(** The state before the first loop. *)
Definition initial_state (input : ndarray R) : fwd_state :=
  {| outputs := [];
     h_t := np_zeros zero (shape0 input) hidden_layer1_size;
     c_t := np_zeros zero (shape0 input) hidden_layer1_size;
     h_t2 := np_zeros zero (shape0 input) hidden_layer2_size;
     c_t2 := np_zeros zero (shape0 input) hidden_layer2_size;
     output := None |}.

(** The loop over the chunks of the input. *)
Definition input_loop (self : Params) (chunks : list (ndarray R)) (st : fwd_state)
  : result fwd_state :=
  for_each (fun st input_t => Ok (cell_step self input_t st)) chunks st.

(** The loop over [range(future)]: it reads the variable [output], which
    is bound only once a step has run. *)
Definition future_loop (self : Params) (future : Z) (st : fwd_state)
  : result fwd_state :=
  for_each (fun st (_ : Z) =>
              match output st with
              | Some o => Ok (cell_step self (as_column o) st)
              | None => Raise UnboundLocalError
              end) (range future) st.

(** The list [outputs] before it is stacked. *)
Definition forward_outputs (self : Params) (input : ndarray R) (future : Z)
  : result (list (list R)) :=
  let st := initial_state input in
  chunks <~ chunk_dim1 input (Z.of_nat (shape1 input)) ;;
  st <~ input_loop self chunks st ;;
  st <~ future_loop self future st ;;
  Ok (outputs st).

(** [LSTMPredictor.forward(self, input, future)] *)
Definition forward (self : Params) (input : ndarray R) (future : Z)
  : result (ndarray R) :=
  outs <~ forward_outputs self input future ;;
  stack_columns outs.

(** The steps [input.chunk(input.size(1), dim=1)] enumerates: the columns
    of the input, one (B, 1) tensor per time index. *)
Definition time_steps (input : ndarray R) : list (ndarray R) :=
  (fun j => narrow_dim1 input (Z.to_nat j) 1) <$> range (Z.of_nat (shape1 input)).

(** Specification device: the predictions of the cell chain run from the
    states [(hc, hc2)] over an explicit list of step inputs. *)
Fixpoint unroll (self : Params) (hc hc2 : ndarray R * ndarray R)
    (xs : list (ndarray R)) : list (list R) :=
  match xs with
  | [] => []
  | x :: xs' =>
      let hc' := lstm1 self x hc in
      let hc2' := lstm2 self (fst hc') hc2 in
      linear self (fst hc2') :: unroll self hc' hc2' xs'
  end.

(** Specification device: the states the cell chain reaches after the step
    inputs [xs]. *)
Fixpoint final_states (self : Params) (hc hc2 : ndarray R * ndarray R)
    (xs : list (ndarray R)) : (ndarray R * ndarray R) * (ndarray R * ndarray R) :=
  match xs with
  | [] => (hc, hc2)
  | x :: xs' =>
      let hc' := lstm1 self x hc in
      let hc2' := lstm2 self (fst hc') hc2 in
      final_states self hc' hc2' xs'
  end.

(** Specification device: [n] predictions, each computed from the one
    before it, starting from the prediction [o]. *)
Fixpoint autoregress (self : Params) (n : nat) (hc hc2 : ndarray R * ndarray R)
    (o : list R) : list (list R) :=
  match n with
  | O => []
  | S n' =>
      let hc' := lstm1 self (as_column o) hc in
      let hc2' := lstm2 self (fst hc') hc2 in
      let o' := linear self (fst hc2') in
      o' :: autoregress self n' hc' hc2' o'
  end.
End Predictor.

(** ** The notebook state, the training loop and the forecast cell *)

(** What the cells do, in the order they do it. *)
Inductive event : Type :=
| EvZeroGrad
| EvForward (future : Z) (grad_tracking : bool)
| EvLoss
| EvBackward
| EvUpdate.

Definition epochs : Z := 150.
Definition days_to_predict : Z := 30.

Section Notebook.
Context {R : Type} (zero : R) {Params : Type} `{!Cells R Params}.
Context {Grad OptState : Type}.
(** [nn.MSELoss()] on the prediction and the target. *)
Context (criteria : ndarray R -> ndarray R -> R).
(** The gradient of the loss with respect to the parameters, which
    [loss.backward()] adds to the gradient accumulators. *)
Context (loss_gradient : Params -> ndarray R -> ndarray R -> Grad).
Context (grad_zero : Grad) (grad_add : Grad -> Grad -> Grad).
(** One step of [torch.optim.Adam]. *)
Context (adam_step : OptState -> Params -> Grad -> Params * OptState).

Record notebook : Type := mk_notebook {
  pred : Params;
  grad : Grad;
  optimizer : OptState;
  losses : list R;
  grad_enabled : bool;
  log : list event
}.

Definition record_event (e : event) (nb : notebook) : notebook :=
  {| pred := pred nb; grad := grad nb; optimizer := optimizer nb;
     losses := losses nb; grad_enabled := grad_enabled nb;
     log := log nb ++ [e] |}.

(** [pred(input, future)] *)
Definition call_pred (nb : notebook) (input : ndarray R) (future : Z)
  : result (notebook * ndarray R) :=
  out <~ forward zero (pred nb) input future ;;
  Ok (record_event (EvForward future (grad_enabled nb)) nb, out).

(** [loss = criteria(out, target_t); losses += [loss.item()]] *)
Definition compute_loss (nb : notebook) (out target_t : ndarray R) : notebook :=
  record_event EvLoss
    {| pred := pred nb; grad := grad nb; optimizer := optimizer nb;
       losses := losses nb ++ [criteria out target_t];
       grad_enabled := grad_enabled nb; log := log nb |}.

(** [optimizer.zero_grad()] *)
Definition zero_grad (nb : notebook) : notebook :=
  record_event EvZeroGrad
    {| pred := pred nb; grad := grad_zero; optimizer := optimizer nb;
       losses := losses nb; grad_enabled := grad_enabled nb; log := log nb |}.

(** [loss.backward()] for the loss of [pred(input_t)] against [target_t] *)
Definition backward (nb : notebook) (input_t target_t : ndarray R) : notebook :=
  record_event EvBackward
    {| pred := pred nb;
       grad := grad_add (grad nb) (loss_gradient (pred nb) input_t target_t);
       optimizer := optimizer nb; losses := losses nb;
       grad_enabled := grad_enabled nb; log := log nb |}.

(** [optimizer.step()] *)
Definition optimizer_step (nb : notebook) : notebook :=
  let po := adam_step (optimizer nb) (pred nb) (grad nb) in
  record_event EvUpdate
    {| pred := fst po; grad := grad nb; optimizer := snd po;
       losses := losses nb; grad_enabled := grad_enabled nb; log := log nb |}.

(** The body of the training loop. *)
Definition epoch_body (input_t target_t : ndarray R) (nb : notebook) (epoch : Z)
  : result notebook :=
  r <~ call_pred nb input_t 0 ;;
  let nb := compute_loss (fst r) (snd r) target_t in
  let nb := zero_grad nb in
  let nb := backward nb input_t target_t in
  Ok (optimizer_step nb).

(** [np.arange(lo, hi)] on integers *)
Definition arange (lo hi : Z) : list Z := (fun k => lo + k) <$> range (hi - lo).

(** The training cell: [losses = []] and the loop over
    [np.arange(1, epochs + 1)]. *)
Definition train (n_epochs : Z) (input_t target_t : ndarray R) (nb : notebook)
  : result notebook :=
  let nb := {| pred := pred nb; grad := grad nb; optimizer := optimizer nb;
               losses := []; grad_enabled := grad_enabled nb; log := log nb |} in
  for_each (epoch_body input_t target_t) (arange 1 (n_epochs + 1)) nb.

Definition set_grad_enabled (b : bool) (nb : notebook) : notebook :=
  {| pred := pred nb; grad := grad nb; optimizer := optimizer nb;
     losses := losses nb; grad_enabled := b; log := log nb |}.

(** The forecast cells for a horizon [days]: [final_input], the call under
    [torch.no_grad()], and [future_predictions = y[0, -days:]].  The
    gradient mode is restored when the [with] block is left. *)
Definition forecast_with (days : Z) (source : list R) (nb : notebook)
  : result (notebook * list R) :=
  final_input <~ reshape_1 (py_slice_from source (- sample_size)) sample_size ;;
  let mode := grad_enabled nb in
  r <~ call_pred (set_grad_enabled false nb) final_input days ;;
  let nb := set_grad_enabled mode (fst r) in
  match rows (snd r) !! 0%nat with
  | Some y0 => Ok (nb, py_slice_from y0 (- days))
  | None => Raise IndexError
  end.

Definition forecast (source : list R) (nb : notebook) : result (notebook * list R) :=
  forecast_with days_to_predict source nb.

End Notebook.

(** ** A small concrete model to run the cells on *)

(** The ramp [0, 1, ..., n-1]. *)
Definition ramp (n : nat) : list Z := Z.of_nat <$> seq 0 n.

Definition sum_list (l : list Z) : Z := foldr Z.add 0 l.

(** Integer cells with one weight [w]: they keep the batch dimension and
    make every state and prediction depend on the step input and on the
    previous state. *)
Definition toy_cell (width : nat) (w : Z) (x : ndarray Z) (s : ndarray Z * ndarray Z)
  : ndarray Z * ndarray Z :=
  let mix := fun b =>
    w * sum_list (default [] (rows x !! b)) + sum_list (take 1 (default [] (rows (snd s) !! b))) in
  ({| shape0 := shape0 x; shape1 := width;
      rows := (fun b => replicate width (mix b)) <$> seq 0 (shape0 x) |},
   {| shape0 := shape0 x; shape1 := width;
      rows := (fun b => replicate width (mix b + 1)) <$> seq 0 (shape0 x) |}).

Definition toy_linear (w : Z) (h : ndarray Z) : list Z :=
  (fun b => w + sum_list (take 2 (default [] (rows h !! b)))) <$> seq 0 (shape0 h).

#[global] Program Instance toy_cells : Cells Z Z := {|
  lstm1 := toy_cell hidden_layer1_size;
  lstm2 := toy_cell hidden_layer2_size;
  linear := toy_linear
|}.
Next Obligation. intros. reflexivity. Qed.
Next Obligation. intros. reflexivity. Qed.
Next Obligation. intros. unfold toy_linear. rewrite length_fmap, length_seq. reflexivity. Qed.

Definition toy_loss (out target : ndarray Z) : Z :=
  sum_list (concat (rows out)) - sum_list (concat (rows target)).

Definition toy_gradient (p : Z) (input target : ndarray Z) : Z :=
  p + sum_list (concat (rows target)).

Definition toy_adam (o p g : Z) : Z * Z := (p - g, o + 1).

Definition toy_notebook (w : Z) : @notebook Z Z Z Z :=
  {| pred := w; grad := 7; optimizer := 0; losses := []; grad_enabled := true; log := [] |}.

(** A batch of two sequences of three steps. *)
Definition toy_input : ndarray Z :=
  {| shape0 := 2; shape1 := 3; rows := [[1; 2; 3]; [4; 5; 6]] |}.

(** A batch of two sequences without any step. *)
Definition toy_empty_input : ndarray Z :=
  {| shape0 := 2; shape1 := 0; rows := [[]; []] |}.

Definition toy_train := train 0 toy_loss toy_gradient 0 Z.add toy_adam.
Definition toy_forecast := forecast (R := Z) (Grad := Z) (OptState := Z) 0.

(** ** The cells around the core: the series and the plots *)

(** An array whose rows match its shape. *)
Definition well_formed {A : Type} (a : ndarray A) : Prop :=
  length (rows a) = shape0 a /\ Forall (fun r => length r = shape1 a) (rows a).

(** [source = df_source.values.reshape(1, df_source.shape[0])[0]]: the
    values are reshaped to one row of [shape[0]] entries, which needs as many
    entries as the array holds, and that row is taken. *)
Definition source_of {A : Type} (values : ndarray A) : result (list A) :=
  if decide (shape0 values * shape1 values = 1 * shape0 values)%nat then
    Ok (concat (rows values))
  else Raise ValueError.

(** [plt.plot(x, y)]: [x] and [y] must have the same first dimension. *)
Definition plt_plot {X Y : Type} (x : list X) (y : list Y) : result unit :=
  if decide (length x = length y) then Ok tt else Raise ValueError.

(** The cell plotting the loss history:
    [plt.plot(np.arange(epochs), losses)]. *)
Definition loss_plot_cell {R : Type} (n_epochs : Z) (losses : list R) : result unit :=
  plt_plot (arange 0 n_epochs) losses.

(** The cell plotting the forecast: the last [sample_size] observations,
    then the predictions at the abscissas
    [np.arange(sample_size, sample_size + days_to_predict)]. *)
Definition forecast_plot_cell {R : Type} (days : Z) (source future_predictions : list R)
  : result unit :=
  _ <~ plt_plot (arange 0 sample_size) (py_slice_from source (- sample_size)) ;;
  plt_plot (arange sample_size (sample_size + days)) future_predictions.

(** A batch that agrees with [toy_input] on its first two steps. *)
Definition toy_input' : ndarray Z :=
  {| shape0 := 2; shape1 := 4; rows := [[1; 2; 9; 7]; [4; 5; 8; 0]] |}.

(** A one-column table of three values. *)
Definition toy_values : ndarray Z :=
  {| shape0 := 3; shape1 := 1; rows := [[10]; [20]; [30]] |}.

(** * Properties *)

(** ** Loops and results *)

Lemma for_each_app {S X : Type} (body : S -> X -> result S) (xs ys : list X) (st : S) :
  for_each body (xs ++ ys) st = (st' <~ for_each body xs st ;; for_each body ys st').
Proof.
  revert st. induction xs as [|x xs IH]; intros st; simpl; [reflexivity|].
  destruct (body st x) as [st'|e]; simpl; [apply IH | reflexivity].
Qed.

Lemma range_nonpos (n : Z) : n <= 0 -> range n = [].
Proof. intros Hn. unfold range. replace (Z.to_nat n) with 0%nat by lia. reflexivity. Qed.

Lemma range_succ (n : Z) : 0 <= n -> range (n + 1) = range n ++ [n].
Proof.
  intros Hn. unfold range.
  replace (Z.to_nat (n + 1)) with (S (Z.to_nat n)) by lia.
  rewrite seq_S, fmap_app. simpl. do 2 f_equal. lia.
Qed.

Lemma length_range (n : Z) : length (range n) = Z.to_nat n.
Proof. unfold range. rewrite length_fmap, length_seq. reflexivity. Qed.

Lemma lookup_range (n : Z) (k : nat) :
  (k < Z.to_nat n)%nat -> range n !! k = Some (Z.of_nat k).
Proof.
  intros Hk. unfold range. rewrite list_lookup_fmap, lookup_seq_lt by assumption.
  reflexivity.
Qed.

(** ** Slices *)

Section SliceFacts.
Context {A : Type}.
Implicit Types (l : list A) (len i start stop : Z).

Lemma adjust_index_bounds len i : 0 <= len -> 0 <= adjust_index len i <= len.
Proof.
  intros Hlen. unfold adjust_index.
  repeat case_match; lia.
Qed.

Lemma adjust_index_neg len i : i < 0 -> 0 <= i + len -> adjust_index len i = i + len.
Proof. intros. unfold adjust_index. repeat case_match; lia. Qed.

Lemma adjust_index_clamp len i : i + len < 0 -> 0 <= len -> adjust_index len i = 0.
Proof. intros. unfold adjust_index. repeat case_match; lia. Qed.

Lemma py_slice_length l start stop :
  length (py_slice l start stop)
  = Z.to_nat (adjust_index (Z.of_nat (length l)) stop
              - adjust_index (Z.of_nat (length l)) start).
Proof.
  unfold py_slice. rewrite length_take, length_drop.
  pose proof (adjust_index_bounds (Z.of_nat (length l)) start ltac:(lia)).
  pose proof (adjust_index_bounds (Z.of_nat (length l)) stop ltac:(lia)).
  lia.
Qed.

Lemma py_slice_lookup l start stop (k : nat) :
  (k < length (py_slice l start stop))%nat ->
  py_slice l start stop !! k
  = l !! (Z.to_nat (adjust_index (Z.of_nat (length l)) start) + k)%nat.
Proof.
  intros Hk. rewrite py_slice_length in Hk. unfold py_slice.
  rewrite lookup_take_lt by lia. apply lookup_drop.
Qed.

Lemma py_slice_from_length l start :
  length (py_slice_from l start)
  = Z.to_nat (Z.of_nat (length l) - adjust_index (Z.of_nat (length l)) start).
Proof.
  unfold py_slice_from. rewrite length_drop.
  pose proof (adjust_index_bounds (Z.of_nat (length l)) start ltac:(lia)). lia.
Qed.
End SliceFacts.

(** ** The windowing loop *)

Section WindowFacts.
Context {A : Type} (zero : A) (W : Z) (source : list A).

Let L : Z := Z.of_nat (length source).

(** A window whose start does not fall before the head of the series is
    the run of [W] elements starting [(i+1) * W + 2] places before the
    end. *)
Lemma input_window_full (i : Z) :
  0 < W -> 0 <= i -> 0 <= L - (i + 1) * W - 2 ->
  input_window W source i
  = take (Z.to_nat W) (drop (Z.to_nat (L - (i + 1) * W - 2)) source).
Proof.
  intros HW Hi Hs. unfold input_window, py_slice. fold L.
  assert (0 <= i * W) by nia.
  rewrite (adjust_index_neg L (- (i + 1) * W - 2)) by nia.
  rewrite (adjust_index_neg L (- i * W - 2)) by nia.
  f_equal; [|f_equal]; f_equal; lia.
Qed.

Lemma output_window_full (i : Z) :
  0 < W -> 0 <= i -> 0 <= L - (i + 1) * W - 1 ->
  output_window W source i
  = take (Z.to_nat W) (drop (Z.to_nat (L - (i + 1) * W - 1)) source).
Proof.
  intros HW Hi Hs. unfold output_window, py_slice. fold L.
  assert (0 <= i * W) by nia.
  rewrite (adjust_index_neg L (- (i + 1) * W - 1)) by nia.
  rewrite (adjust_index_neg L (- i * W - 1)) by nia.
  f_equal; [|f_equal]; f_equal; lia.
Qed.

Lemma input_window_full_length (i : Z) :
  0 < W -> 0 <= i -> 0 <= L - (i + 1) * W - 2 ->
  length (input_window W source i) = Z.to_nat W.
Proof.
  intros HW Hi Hs. rewrite input_window_full by assumption.
  rewrite length_take, length_drop. subst L. nia.
Qed.

Lemma output_window_full_length (i : Z) :
  0 < W -> 0 <= i -> 0 <= L - (i + 1) * W - 1 ->
  length (output_window W source i) = Z.to_nat W.
Proof.
  intros HW Hi Hs. rewrite output_window_full by assumption.
  rewrite length_take, length_drop. subst L. nia.
Qed.

(** A window whose start falls before the head of the series is cut at
    the head: it keeps only the elements up to its stop. *)
Lemma input_window_cut_length (i : Z) :
  0 < W -> 0 <= i -> L - (i + 1) * W - 2 < 0 -> 0 <= L - i * W - 2 ->
  length (input_window W source i) = Z.to_nat (L - i * W - 2).
Proof.
  intros HW Hi Hs He. unfold input_window. rewrite py_slice_length. fold L.
  rewrite (adjust_index_clamp L (- (i + 1) * W - 2)) by (subst L; nia).
  rewrite (adjust_index_neg L (- i * W - 2)) by nia.
  f_equal. lia.
Qed.

Lemma setitem_row_filled (f : Z -> list A) (n m : nat) :
  (m < n)%nat -> length (f (Z.of_nat m)) = Z.to_nat W ->
  setitem_row (filled zero W f n m) m (f (Z.of_nat m)) = Ok (filled zero W f n (S m)).
Proof.
  intros Hm Hlen. unfold setitem_row, filled. simpl.
  rewrite decide_True by assumption. rewrite decide_True by assumption.
  f_equal. f_equal.
  replace (Z.of_nat (S m)) with (Z.of_nat m + 1) by lia.
  rewrite range_succ by lia.
  replace (n - m)%nat with (S (n - S m)) by lia.
  rewrite fmap_app, <- app_assoc. simpl.
  rewrite insert_app_r_alt by (rewrite length_fmap, length_range; lia).
  rewrite length_fmap, length_range.
  replace (m - Z.to_nat (Z.of_nat m))%nat with 0%nat by lia. reflexivity.
Qed.

Lemma window_loop_prefix (n m : nat) :
  (m <= n)%nat ->
  (forall i : nat, (i < m)%nat ->
     length (input_window W source (Z.of_nat i)) = Z.to_nat W /\
     length (output_window W source (Z.of_nat i)) = Z.to_nat W) ->
  for_each (window_body W source) (range (Z.of_nat m))
    (np_zeros zero n (Z.to_nat W), np_zeros zero n (Z.to_nat W))
  = Ok (filled zero W (input_window W source) n m,
        filled zero W (output_window W source) n m).
Proof.
  induction m as [|m IH]; intros Hm Hlen.
  - simpl. unfold filled, np_zeros. simpl. rewrite Nat.sub_0_r. reflexivity.
  - replace (Z.of_nat (S m)) with (Z.of_nat m + 1) by lia.
    rewrite range_succ by lia. rewrite for_each_app.
    rewrite IH by (try lia; intros i Hi; apply Hlen; lia).
    destruct (Hlen m ltac:(lia)) as [Hin Hout].
    simpl. unfold window_body. simpl. rewrite Nat2Z.id.
    rewrite setitem_row_filled by (assumption || lia). simpl.
    rewrite setitem_row_filled by (assumption || lia). simpl.
    replace (Z.of_nat m + 1) with (Z.of_nat (S m)) by lia. reflexivity.
Qed.

(** Row [i] of a filled array is window [i]. *)
Lemma filled_lookup (f : Z -> list A) (n m i : nat) :
  (i < m)%nat -> rows (filled zero W f n m) !! i = Some (f (Z.of_nat i)).
Proof.
  intros Hi. unfold filled. simpl.
  rewrite lookup_app_l by (rewrite length_fmap, length_range; lia).
  rewrite list_lookup_fmap, lookup_range by lia. reflexivity.
Qed.

(** In arrays filled up to row [m], an entry of a full window [i < m] of
    the input sits one place before the same entry of the output. *)
Lemma filled_shift_by_one (n m i k : nat) :
  0 < W -> (i < m)%nat -> (k < Z.to_nat W)%nat -> 0 <= L - (Z.of_nat i + 1) * W - 2 ->
  exists (p : nat) (x y : A),
    Z.of_nat p = L - (Z.of_nat i + 1) * W - 2 + Z.of_nat k /\
    entry (filled zero W (input_window W source) n m) i k = Some x /\
    source !! p = Some x /\
    entry (filled zero W (output_window W source) n m) i k = Some y /\
    source !! (p + 1)%nat = Some y.
Proof.
  intros HW Hi Hk Hs.
  exists (Z.to_nat (L - (Z.of_nat i + 1) * W - 2) + k)%nat.
  assert (is_Some (source !! (Z.to_nat (L - (Z.of_nat i + 1) * W - 2) + k)%nat))
    as [x Hx] by (apply lookup_lt_is_Some; subst L; nia).
  assert (is_Some (source !! (Z.to_nat (L - (Z.of_nat i + 1) * W - 2) + k + 1)%nat))
    as [y Hy] by (apply lookup_lt_is_Some; subst L; nia).
  exists x, y. split; [lia|].
  unfold entry. rewrite !filled_lookup by assumption. simpl.
  rewrite input_window_full, output_window_full by (fold L; lia).
  rewrite !lookup_take_lt, !lookup_drop by lia. fold L.
  replace (Z.to_nat (L - (Z.of_nat i + 1) * W - 1) + k)%nat
    with (Z.to_nat (L - (Z.of_nat i + 1) * W - 2) + k + 1)%nat by lia.
  auto.
Qed.
End WindowFacts.

(** ** When the windowing cell succeeds and when it fails *)

Section WindowingOutcome.
Context {A : Type} (zero : A) (W : Z) (source : list A).

Let L : Z := Z.of_nat (length source).

(** The loop runs to its end when the series is shorter than a window (no
    iteration) or leaves a remainder of at least two elements. *)
Lemma windowing_with_ok :
  0 < W -> L < W \/ 2 <= L mod W ->
  windowing_with zero W source
  = Ok (filled zero W (input_window W source) (Z.to_nat (L / W)) (Z.to_nat (L / W)),
        filled zero W (output_window W source) (Z.to_nat (L / W)) (Z.to_nat (L / W))).
Proof.
  intros HW Hcase. unfold windowing_with, num_samples_of. fold L.
  pose proof (Z.div_mod L W ltac:(lia)) as Hdm.
  pose proof (Z.mod_pos_bound L W HW) as Hr.
  assert (0 <= L / W) as Hq by (apply Z.div_pos; subst L; lia).
  rewrite decide_False by lia. rewrite decide_False by lia.
  pose proof (window_loop_prefix zero W source (Z.to_nat (L / W)) (Z.to_nat (L / W)))
    as Hloop.
  rewrite Z2Nat.id in Hloop by assumption.
  apply Hloop; [lia|].
  intros i Hi.
  assert (2 <= L mod W) as Hr2.
  { destruct Hcase as [Hlt|?]; [|assumption].
    rewrite Z.div_small in Hi by (subst L; lia). simpl in Hi. lia. }
  assert ((Z.of_nat i + 1) * W <= W * (L / W)) by nia.
  split.
  - apply input_window_full_length; fold L; lia.
  - apply output_window_full_length; fold L; lia.
Qed.

(** With a remainder below two the start of the earliest window falls
    before the head of the series: the windows before it are built, its
    input slice comes out short, and the row assignment is rejected. *)
Lemma windowing_with_error :
  4 <= W -> W <= L -> L mod W < 2 ->
  let n := Z.to_nat (L / W) in
  for_each (window_body W source) (range (L / W - 1))
    (np_zeros zero n (Z.to_nat W), np_zeros zero n (Z.to_nat W))
  = Ok (filled zero W (input_window W source) n (n - 1),
        filled zero W (output_window W source) n (n - 1)) /\
  length (input_window W source (L / W - 1)) = Z.to_nat (W + L mod W - 2) /\
  window_body W source
    (filled zero W (input_window W source) n (n - 1),
     filled zero W (output_window W source) n (n - 1)) (L / W - 1)
  = Raise ValueError /\
  windowing_with zero W source = Raise ValueError.
Proof.
  intros HW HL Hr2 n.
  pose proof (Z.div_mod L W ltac:(lia)) as Hdm.
  pose proof (Z.mod_pos_bound L W ltac:(lia)) as Hr.
  assert (1 <= L / W) as Hq by (apply Z.div_le_lower_bound; lia).
  assert (for_each (window_body W source) (range (L / W - 1))
            (np_zeros zero n (Z.to_nat W), np_zeros zero n (Z.to_nat W))
          = Ok (filled zero W (input_window W source) n (n - 1),
                filled zero W (output_window W source) n (n - 1))) as Hprefix.
  { replace (L / W - 1) with (Z.of_nat (n - 1)) by lia.
    apply window_loop_prefix; [lia|].
    intros i Hi.
    assert ((Z.of_nat i + 2) * W <= W * (L / W)) by nia.
    split.
    - apply input_window_full_length; fold L; lia.
    - apply output_window_full_length; fold L; lia. }
  assert (length (input_window W source (L / W - 1)) = Z.to_nat (W + L mod W - 2))
    as Hshort.
  { rewrite input_window_cut_length by (fold L; nia). fold L. f_equal. nia. }
  assert (window_body W source
            (filled zero W (input_window W source) n (n - 1),
             filled zero W (output_window W source) n (n - 1)) (L / W - 1)
          = Raise ValueError) as Hbody.
  { unfold window_body, setitem_row. simpl.
    rewrite decide_True by lia.
    rewrite decide_False by (rewrite Hshort; lia).
    destruct (input_window W source (L / W - 1)) as [|x [|y v]] eqn:Hv;
      simpl in Hshort; try reflexivity; lia. }
  repeat split; try assumption.
  unfold windowing_with, num_samples_of. fold L.
  rewrite decide_False by lia. rewrite decide_False by lia.
  replace (L / W) with ((L / W - 1) + 1) at 1 by lia.
  rewrite range_succ by lia. rewrite for_each_app.
  fold n. rewrite Hprefix. simpl. rewrite Hbody. reflexivity.
Qed.

(** The two cases together: for a window size of at least four the cell
    succeeds exactly on the series shorter than a window and on those
    leaving a remainder of at least two. *)
Lemma windowing_with_ok_iff :
  4 <= W ->
  (exists io, windowing_with zero W source = Ok io) <-> (L < W \/ 2 <= L mod W).
Proof.
  intros HW. split.
  - intros [io Hio].
    destruct (decide (L < W)) as [?|HL]; [left; assumption|].
    destruct (decide (2 <= L mod W)) as [?|Hr]; [right; assumption|].
    destruct (windowing_with_error HW ltac:(lia) ltac:(lia)) as (_ & _ & _ & Herr).
    rewrite Herr in Hio. discriminate.
  - intros Hcase. eexists. apply windowing_with_ok; [lia | assumption].
Qed.
End WindowingOutcome.

(** ** Which positions of the series reach a window *)

Lemma in_range (n i : Z) : In i (range n) <-> 0 <= i < n.
Proof.
  unfold range. rewrite <- list_elem_of_In, list_elem_of_fmap. split.
  - intros (j & -> & Hj). apply elem_of_seq in Hj. lia.
  - intros Hi. exists (Z.to_nat i). split; [lia|]. apply elem_of_seq. lia.
Qed.

Lemma window_covers_full (W len i p : Z) :
  0 < W -> 0 <= i -> 0 <= len - (i + 1) * W - 2 ->
  window_covers W len i p = true
  <-> len - (i + 1) * W - 2 <= p <= len - i * W - 2.
Proof.
  intros HW Hi Hs. unfold window_covers, in_span.
  assert (0 <= i * W) by nia.
  rewrite (adjust_index_neg len (- (i + 1) * W - 2)) by nia.
  rewrite (adjust_index_neg len (- i * W - 2)) by nia.
  rewrite (adjust_index_neg len (- (i + 1) * W - 1)) by nia.
  rewrite (adjust_index_neg len (- i * W - 1)) by nia.
  rewrite orb_true_iff, !andb_true_iff, !Z.leb_le, !Z.ltb_lt. nia.
Qed.

Lemma excluded_iff (W len p : Z) :
  0 < W -> W <= len -> 2 <= len mod W -> 0 <= p < len ->
  excluded W len p = true <-> (p < len mod W - 2 \/ p = len - 1).
Proof.
  intros HW Hlen Hr Hp.
  pose proof (Z.div_mod len W ltac:(lia)) as Hdm.
  pose proof (Z.mod_pos_bound len W HW) as Hrb.
  assert (1 <= len / W) as Hq by (apply Z.div_le_lower_bound; lia).
  unfold excluded. rewrite forallb_forall. split.
  - intros Hex.
    destruct (decide (p < len mod W - 2)) as [?|Hlo]; [left; assumption|].
    destruct (decide (p = len - 1)) as [?|Hhi]; [right; assumption|].
    exfalso.
    destruct (decide (p = len - 2)) as [->|Hp2].
    + specialize (Hex 0 ltac:(apply in_range; lia)).
      apply negb_true_iff in Hex.
      assert (window_covers W len 0 (len - 2) = true) as Hcov
        by (apply window_covers_full; nia).
      congruence.
    + pose proof (Z.div_mod (len - 3 - p) W ltac:(lia)) as Hdm'.
      pose proof (Z.mod_pos_bound (len - 3 - p) W HW) as Hrb'.
      set (i := (len - 3 - p) / W) in *.
      assert (0 <= i) by (apply Z.div_pos; lia).
      assert (i < len / W) by nia.
      specialize (Hex i ltac:(apply in_range; lia)).
      apply negb_true_iff in Hex.
      assert (window_covers W len i p = true) as Hcov
        by (apply window_covers_full; nia).
      congruence.
  - intros Hcase i Hi. apply in_range in Hi.
    apply negb_true_iff. apply not_true_is_false.
    rewrite window_covers_full by nia. nia.
Qed.

(** ** Runs of consecutive elements *)

Section WindowRuns.
Context {A : Type}.

Lemma concat_reverse_windows (W c : Z) (source : list A) (g : Z -> list A) (m : nat) :
  0 < W -> 0 <= c ->
  Z.of_nat m * W + c <= Z.of_nat (length source) ->
  (forall i : nat, (i < m)%nat ->
     g (Z.of_nat i)
     = take (Z.to_nat W)
         (drop (Z.to_nat (Z.of_nat (length source) - (Z.of_nat i + 1) * W - c)) source)) ->
  concat (reverse (g <$> range (Z.of_nat m)))
  = take (Z.to_nat (Z.of_nat m * W))
      (drop (Z.to_nat (Z.of_nat (length source) - Z.of_nat m * W - c)) source).
Proof.
  intros HW Hc. induction m as [|m IH]; intros Hfit Hg.
  - reflexivity.
  - replace (Z.of_nat (S m)) with (Z.of_nat m + 1) by lia.
    rewrite range_succ by lia.
    rewrite fmap_app, reverse_app. cbn [fmap list_fmap reverse app concat].
    rewrite reverse_singleton. cbn [app concat].
    rewrite Hg by lia. rewrite IH by (try nia; intros i Hi; apply Hg; lia).
    set (s := Z.to_nat (Z.of_nat (length source) - (Z.of_nat m + 1) * W - c)).
    replace (Z.to_nat (Z.of_nat (length source) - Z.of_nat m * W - c))
      with (s + Z.to_nat W)%nat by (subst s; nia).
    rewrite <- drop_drop, take_take_drop. f_equal. nia.
Qed.

(** A series is its first [a] elements, the next [n], and the rest. *)
Lemma take_segment_drop (l : list A) (a n : nat) :
  l = take a l ++ take n (drop a l) ++ drop (a + n) l.
Proof.
  rewrite <- (drop_drop l n a), (take_drop n (drop a l)), take_drop. reflexivity.
Qed.

(** In a series without repetition, the element at position [p] occurs in
    the run of [n] elements from position [s] exactly when [p] lies in it. *)
Lemma elem_of_segment_NoDup (l : list A) (s n p : nat) (x : A) :
  NoDup l -> l !! p = Some x ->
  x ∈ take n (drop s l) <-> (s <= p < s + n)%nat.
Proof.
  intros Hnd Hp. rewrite list_elem_of_lookup. split.
  - intros [k Hk].
    assert (k < n)%nat as Hkn.
    { destruct (decide (k < n)%nat); [assumption|].
      rewrite lookup_take_ge in Hk by lia. discriminate. }
    rewrite lookup_take_lt, lookup_drop in Hk by assumption.
    pose proof (NoDup_lookup l _ _ x Hnd Hk Hp). lia.
  - intros Hin. exists (p - s)%nat.
    rewrite lookup_take_lt, lookup_drop by lia.
    replace (s + (p - s))%nat with p by lia. exact Hp.
Qed.

(** Reading the rows in the other order does not change which elements
    occur in them. *)
Lemma elem_of_concat_reverse (rs : list (list A)) (x : A) :
  x ∈ concat (reverse rs) <-> x ∈ concat rs.
Proof.
  rewrite !list_elem_of_In, !in_concat.
  split; intros (r & Hr & Hx); exists r; (split; [|assumption]).
  - apply list_elem_of_In. apply list_elem_of_In in Hr.
    rewrite elem_of_reverse in Hr. exact Hr.
  - apply list_elem_of_In. rewrite elem_of_reverse. apply list_elem_of_In. exact Hr.
Qed.
End WindowRuns.

(** ** The windowing cell: shift by one, sample count, degenerate series *)

Section WindowingClaims.
Context {A : Type} (zero : A).

(** C1. Whenever the windowing cell (sample_size = 250) returns its pair
    of arrays, every entry [input[i][k]] is the element of the series at
    position [p = L - (i+1)*250 - 2 + k], and [output[i][k]] is the
    element at position [p + 1], the one that follows it in the series. *)
Theorem windowing_shift_by_one (source : list A) (inp out : ndarray A) (i k : nat) :
  windowing zero source = Ok (inp, out) ->
  (i < shape0 inp)%nat -> (k < shape1 inp)%nat ->
  exists (p : nat) (x y : A),
    Z.of_nat p
    = Z.of_nat (length source) - (Z.of_nat i + 1) * sample_size - 2 + Z.of_nat k /\
    entry inp i k = Some x /\ source !! p = Some x /\
    entry out i k = Some y /\ source !! (p + 1)%nat = Some y.
Proof.
  unfold windowing. intros Hok Hi Hk.
  set (L := Z.of_nat (length source)) in *.
  assert (L < sample_size \/ 2 <= L mod sample_size) as Hcase.
  { apply (windowing_with_ok_iff zero sample_size source); [unfold sample_size; lia|].
    eexists; eassumption. }
  rewrite (windowing_with_ok zero sample_size source) in Hok
    by (assumption || (unfold sample_size; lia)).
  fold L in Hok. injection Hok as <- <-. simpl in Hi, Hk.
  pose proof (Z.div_mod L sample_size ltac:(unfold sample_size; lia)) as Hdm.
  pose proof (Z.mod_pos_bound L sample_size ltac:(unfold sample_size; lia)) as Hr.
  assert (0 <= L / sample_size) as Hq by (apply Z.div_pos; unfold sample_size; lia).
  assert (2 <= L mod sample_size) as Hr2.
  { destruct Hcase as [Hlt|?]; [|assumption].
    rewrite Z.div_small in Hi by lia. simpl in Hi. lia. }
  assert ((Z.of_nat i + 1) * sample_size <= sample_size * (L / sample_size)) by nia.
  assert (0 < sample_size) by (unfold sample_size; lia).
  apply filled_shift_by_one; fold L; (assumption || lia).
Qed.

(** The same holds for the rows already assigned when the loop is stopped
    after its first [m] iterations, whether or not a later one raises. *)
Lemma window_prefix_shift_by_one (source : list A) (m : nat) (inp out : ndarray A)
    (i k : nat) :
  Z.of_nat m <= num_samples_of sample_size source ->
  for_each (window_body sample_size source) (range (Z.of_nat m))
    (np_zeros zero (Z.to_nat (num_samples_of sample_size source)) (Z.to_nat sample_size),
     np_zeros zero (Z.to_nat (num_samples_of sample_size source)) (Z.to_nat sample_size))
  = Ok (inp, out) ->
  (i < m)%nat -> (k < Z.to_nat sample_size)%nat ->
  exists (p : nat) (x y : A),
    Z.of_nat p
    = Z.of_nat (length source) - (Z.of_nat i + 1) * sample_size - 2 + Z.of_nat k /\
    entry inp i k = Some x /\ source !! p = Some x /\
    entry out i k = Some y /\ source !! (p + 1)%nat = Some y.
Proof.
  unfold num_samples_of. intros Hm Hrun Hi Hk.
  set (L := Z.of_nat (length source)) in *.
  assert (0 < sample_size) as HW by (unfold sample_size; lia).
  assert (4 <= sample_size) as HW4 by (unfold sample_size; lia).
  pose proof (Z.div_mod L sample_size ltac:(lia)) as Hdm.
  pose proof (Z.mod_pos_bound L sample_size HW) as Hr.
  assert (forall j : nat, (j < m)%nat -> 0 <= L - (Z.of_nat j + 1) * sample_size - 2)
    as Hfull.
  { destruct (decide (2 <= L mod sample_size)) as [Hr2|Hr2]; [intros j Hj; nia|].
    destruct (decide (Z.of_nat m = L / sample_size)) as [Hmq|Hmq]; [|intros j Hj; nia].
    exfalso.
    destruct (windowing_with_error zero sample_size source HW4) as (_ & _ & _ & Herr);
      [fold L; nia | fold L; lia |].
    unfold windowing_with, num_samples_of in Herr. fold L in Herr.
    rewrite decide_False in Herr by lia. rewrite decide_False in Herr by lia.
    rewrite Hmq in Hrun. rewrite Hrun in Herr. discriminate. }
  rewrite (window_loop_prefix zero sample_size source) in Hrun.
  - injection Hrun as <- <-. apply filled_shift_by_one; fold L; auto; lia.
  - lia.
  - intros j Hj. specialize (Hfull j Hj). split.
    + apply input_window_full_length; fold L; lia.
    + apply output_window_full_length; fold L; lia.
Qed.

(** C2, as the cell behaves. For a series of length [L >= W] that leaves a
    remainder [L mod W >= 2], the cell returns [L / W] sample pairs.  Row
    [i] of [input] is the run of [W] elements of the series that starts
    [(i+1) * W + 2] places before its end, and row [i] of [output] the run
    one place later.  The series is its first [L mod W - 2] elements, then
    the rows of [input] from the last to the first, then its last two
    elements; it is also its first [L mod W - 1] elements, the rows of
    [output] from the last to the first, and its last element.  So the
    positions whose element reaches no row of either array are the first
    [L mod W - 2] ones and the last one, [L - 1]; in a series without
    repeated values these are exactly the elements that occur in neither
    array. *)
Theorem windowing_count_and_excluded (W : Z) (source : list A) :
  0 < W -> W <= Z.of_nat (length source) -> 2 <= Z.of_nat (length source) mod W ->
  exists inp out : ndarray A,
    windowing_with zero W source = Ok (inp, out) /\
    shape0 inp = Z.to_nat (Z.of_nat (length source) / W) /\
    shape0 out = Z.to_nat (Z.of_nat (length source) / W) /\
    length (rows inp) = Z.to_nat (Z.of_nat (length source) / W) /\
    length (rows out) = Z.to_nat (Z.of_nat (length source) / W) /\
    (forall i : nat, (i < Z.to_nat (Z.of_nat (length source) / W))%nat ->
       rows inp !! i
       = Some (take (Z.to_nat W)
                 (drop (Z.to_nat (Z.of_nat (length source) - (Z.of_nat i + 1) * W - 2))
                    source)) /\
       rows out !! i
       = Some (take (Z.to_nat W)
                 (drop (Z.to_nat (Z.of_nat (length source) - (Z.of_nat i + 1) * W - 1))
                    source)) /\
       (Z.to_nat (Z.of_nat (length source) - (Z.of_nat i + 1) * W - 1) + Z.to_nat W
        <= length source)%nat) /\
    source
    = take (Z.to_nat (Z.of_nat (length source) mod W - 2)) source
      ++ concat (reverse (rows inp))
      ++ drop (Z.to_nat (Z.of_nat (length source) - 2)) source /\
    source
    = take (Z.to_nat (Z.of_nat (length source) mod W - 1)) source
      ++ concat (reverse (rows out))
      ++ drop (Z.to_nat (Z.of_nat (length source) - 1)) source /\
    (NoDup source ->
     forall (p : nat) (x : A), source !! p = Some x ->
       ((x ∉ concat (rows inp)) /\ (x ∉ concat (rows out)))
       <-> (Z.of_nat p < Z.of_nat (length source) mod W - 2
            \/ Z.of_nat p = Z.of_nat (length source) - 1)) /\
    (forall p : Z, 0 <= p < Z.of_nat (length source) ->
       excluded W (Z.of_nat (length source)) p = true
       <-> (p < Z.of_nat (length source) mod W - 2
            \/ p = Z.of_nat (length source) - 1)).
Proof.
  intros HW HL Hr.
  set (L := Z.of_nat (length source)) in *.
  pose proof (Z.div_mod L W ltac:(lia)) as Hdm.
  pose proof (Z.mod_pos_bound L W HW) as Hrb.
  assert (1 <= L / W) as Hq by (apply Z.div_le_lower_bound; lia).
  assert (forall i : nat, (i < Z.to_nat (L / W))%nat ->
            (Z.of_nat i + 1) * W <= W * (L / W)) as Hfit by (intros i Hi; nia).
  assert (concat (reverse (input_window W source <$> range (L / W)))
          = take (Z.to_nat (W * (L / W))) (drop (Z.to_nat (L mod W - 2)) source)) as Hin.
  { rewrite <- (Z2Nat.id (L / W)) at 1 by lia.
    rewrite (concat_reverse_windows W 2 source) by
      (try lia; try (fold L; nia);
       intros i Hi; apply input_window_full; fold L; specialize (Hfit i Hi); lia).
    fold L. f_equal; [|f_equal]; nia. }
  assert (concat (reverse (output_window W source <$> range (L / W)))
          = take (Z.to_nat (W * (L / W))) (drop (Z.to_nat (L mod W - 1)) source)) as Hout.
  { rewrite <- (Z2Nat.id (L / W)) at 1 by lia.
    rewrite (concat_reverse_windows W 1 source) by
      (try lia; try (fold L; nia);
       intros i Hi; apply output_window_full; fold L; specialize (Hfit i Hi); lia).
    fold L. f_equal; [|f_equal]; nia. }
  do 2 eexists. split; [apply windowing_with_ok; fold L; [assumption | right; assumption]|].
  fold L. cbn [shape0 rows filled]. rewrite Nat.sub_diag. cbn [replicate].
  rewrite !app_nil_r, !length_fmap, !length_range, !Nat2Z.id.
  rewrite (Z2Nat.id (L / W)) by lia.
  split; [reflexivity|]. split; [reflexivity|]. split; [reflexivity|]. split; [reflexivity|].
  split.
  { intros i Hi. specialize (Hfit i Hi).
    rewrite !list_lookup_fmap, !lookup_range by lia. cbn [fmap option_fmap option_map].
    rewrite input_window_full, output_window_full by (fold L; lia).
    fold L. split; [reflexivity|]. split; [reflexivity|]. lia. }
  split.
  { rewrite Hin.
    replace (Z.to_nat (L - 2)) with (Z.to_nat (L mod W - 2) + Z.to_nat (W * (L / W)))%nat
      by nia.
    apply take_segment_drop. }
  split.
  { rewrite Hout.
    replace (Z.to_nat (L - 1)) with (Z.to_nat (L mod W - 1) + Z.to_nat (W * (L / W)))%nat
      by nia.
    apply take_segment_drop. }
  split.
  { intros Hnd p x Hp.
    assert (p < length source)%nat as Hplt by (apply lookup_lt_is_Some; eauto).
    rewrite <- (elem_of_concat_reverse (input_window W source <$> range (L / W))).
    rewrite <- (elem_of_concat_reverse (output_window W source <$> range (L / W))).
    rewrite Hin, Hout.
    rewrite (elem_of_segment_NoDup source _ _ p x Hnd Hp).
    rewrite (elem_of_segment_NoDup source _ _ p x Hnd Hp).
    subst L. nia. }
  intros p Hp. apply excluded_iff; assumption.
Qed.

(** C4. A series shorter than [sample_size + 2] never yields a window:
    below [sample_size] elements the cell returns two arrays with zero
    rows, and with [sample_size] or [sample_size + 1] elements the row
    assignment raises [ValueError].  A slice is always a run of consecutive
    positions of the series, in order, within its bounds. *)
Theorem windowing_short_series (source : list A) :
  Z.of_nat (length source) < sample_size + 2 ->
  (Z.of_nat (length source) < sample_size ->
     windowing zero source
     = Ok (np_zeros zero 0 (Z.to_nat sample_size), np_zeros zero 0 (Z.to_nat sample_size))) /\
  (sample_size <= Z.of_nat (length source) ->
     windowing zero source = Raise ValueError) /\
  (forall (start stop : Z) (k : nat) (x : A),
     py_slice source start stop !! k = Some x ->
     exists p : nat, (p < length source)%nat /\ source !! p = Some x /\
       p = (Z.to_nat (adjust_index (Z.of_nat (length source)) start) + k)%nat).
Proof.
  intros Hshort. unfold windowing. repeat split.
  - intros Hlt.
    rewrite windowing_with_ok by (unfold sample_size in *; lia).
    rewrite Z.div_small by lia. reflexivity.
  - intros Hge.
    assert (Z.of_nat (length source) mod sample_size < 2) as Hr.
    { unfold sample_size in *.
      pose proof (Z.div_mod (Z.of_nat (length source)) 250 ltac:(lia)).
      pose proof (Z.mod_pos_bound (Z.of_nat (length source)) 250 ltac:(lia)).
      assert (Z.of_nat (length source) / 250 = 1) by nia. lia. }
    apply (windowing_with_error zero sample_size source);
      unfold sample_size in *; lia.
  - intros start stop k x Hx.
    assert (k < length (py_slice source start stop))%nat as Hk
      by (apply lookup_lt_is_Some; eauto).
    rewrite py_slice_lookup in Hx by assumption.
    eexists. split; [|split; [exact Hx | reflexivity]].
    apply lookup_lt_is_Some; eauto.
Qed.

(** C9, as the cell behaves. For a window size of at least four (the
    cell's is 250): on a series of length [L >= W] with [L mod W < 2] the
    windows before the earliest one are built, the input slice of the
    earliest window, [i = L / W - 1], has only [W + L mod W - 2] elements,
    its row assignment raises [ValueError], and so does the cell; the cell
    succeeds exactly when [L < W] (no window at all) or [L mod W >= 2]. *)
Theorem windowing_remainder_rule (W : Z) (source : list A) :
  4 <= W ->
  (W <= Z.of_nat (length source) -> Z.of_nat (length source) mod W < 2 ->
     let n := Z.to_nat (Z.of_nat (length source) / W) in
     for_each (window_body W source) (range (Z.of_nat (length source) / W - 1))
       (np_zeros zero n (Z.to_nat W), np_zeros zero n (Z.to_nat W))
     = Ok (filled zero W (input_window W source) n (n - 1),
           filled zero W (output_window W source) n (n - 1)) /\
     length (input_window W source (Z.of_nat (length source) / W - 1))
     = Z.to_nat (W + Z.of_nat (length source) mod W - 2) /\
     (length (input_window W source (Z.of_nat (length source) / W - 1)) < Z.to_nat W)%nat /\
     window_body W source
       (filled zero W (input_window W source) n (n - 1),
        filled zero W (output_window W source) n (n - 1))
       (Z.of_nat (length source) / W - 1)
     = Raise ValueError /\
     windowing_with zero W source = Raise ValueError) /\
  ((exists io, windowing_with zero W source = Ok io)
   <-> (Z.of_nat (length source) < W \/ 2 <= Z.of_nat (length source) mod W)).
Proof.
  intros HW. split.
  - intros HL Hr n.
    destruct (windowing_with_error zero W source HW HL Hr) as (H1 & H2 & H3 & H4).
    repeat split; try assumption.
    rewrite H2. lia.
  - apply windowing_with_ok_iff. assumption.
Qed.
End WindowingClaims.

(** ** The windowing cell on concrete series *)

Lemma windowing_shift_by_one_witness :
  windowing 0 (ramp 252)
  = Ok (filled 0 250 (input_window 250 (ramp 252)) 1 1,
        filled 0 250 (output_window 250 (ramp 252)) 1 1) /\
  exists (p : nat) (x y : Z),
    Z.of_nat p
    = Z.of_nat (length (ramp 252)) - (Z.of_nat 0 + 1) * sample_size - 2 + Z.of_nat 249 /\
    entry (filled 0 250 (input_window 250 (ramp 252)) 1 1) 0 249 = Some x /\
    ramp 252 !! p = Some x /\
    entry (filled 0 250 (output_window 250 (ramp 252)) 1 1) 0 249 = Some y /\
    ramp 252 !! (p + 1)%nat = Some y.
Proof.
  split; [vm_compute; reflexivity|].
  apply (windowing_shift_by_one 0 (ramp 252)
           (filled 0 250 (input_window 250 (ramp 252)) 1 1)
           (filled 0 250 (output_window 250 (ramp 252)) 1 1) 0 249).
  - vm_compute. reflexivity.
  - vm_compute. lia.
  - vm_compute. lia.
Defined.

(** C2, as stated, fails on the ramp of 252 values: the cell returns its
    arrays, and the last value of the series, 251 at position 251, occurs in
    no window. *)
Lemma windowing_excludes_last_element :
  exists inp out : ndarray Z,
    windowing 0 (ramp 252) = Ok (inp, out) /\
    ramp 252 !! 251%nat = Some 251 /\ length (ramp 252) = 252%nat /\
    (251 ∉ concat (rows inp)) /\ (251 ∉ concat (rows out)) /\
    excluded sample_size 252 251 = true.
Proof.
  exists (filled 0 250 (input_window 250 (ramp 252)) 1 1),
         (filled 0 250 (output_window 250 (ramp 252)) 1 1).
  split; [vm_compute; reflexivity|].
  split; [reflexivity|]. split; [reflexivity|].
  split; [|split].
  - apply (bool_decide_unpack _). vm_compute. exact I.
  - apply (bool_decide_unpack _). vm_compute. exact I.
  - vm_compute. reflexivity.
Qed.

Lemma windowing_count_and_excluded_witness :
  0 < 250 /\ 250 <= Z.of_nat (length (ramp 502)) /\
  2 <= Z.of_nat (length (ramp 502)) mod 250 /\
  exists inp out : ndarray Z,
    windowing_with 0 250 (ramp 502) = Ok (inp, out) /\
    shape0 inp = Z.to_nat (Z.of_nat (length (ramp 502)) / 250) /\
    shape0 out = Z.to_nat (Z.of_nat (length (ramp 502)) / 250) /\
    length (rows inp) = Z.to_nat (Z.of_nat (length (ramp 502)) / 250) /\
    length (rows out) = Z.to_nat (Z.of_nat (length (ramp 502)) / 250) /\
    (forall i : nat, (i < Z.to_nat (Z.of_nat (length (ramp 502)) / 250))%nat ->
       rows inp !! i
       = Some (take (Z.to_nat 250)
                 (drop (Z.to_nat (Z.of_nat (length (ramp 502)) - (Z.of_nat i + 1) * 250 - 2))
                    (ramp 502))) /\
       rows out !! i
       = Some (take (Z.to_nat 250)
                 (drop (Z.to_nat (Z.of_nat (length (ramp 502)) - (Z.of_nat i + 1) * 250 - 1))
                    (ramp 502))) /\
       (Z.to_nat (Z.of_nat (length (ramp 502)) - (Z.of_nat i + 1) * 250 - 1) + Z.to_nat 250
        <= length (ramp 502))%nat) /\
    ramp 502
    = take (Z.to_nat (Z.of_nat (length (ramp 502)) mod 250 - 2)) (ramp 502)
      ++ concat (reverse (rows inp))
      ++ drop (Z.to_nat (Z.of_nat (length (ramp 502)) - 2)) (ramp 502) /\
    ramp 502
    = take (Z.to_nat (Z.of_nat (length (ramp 502)) mod 250 - 1)) (ramp 502)
      ++ concat (reverse (rows out))
      ++ drop (Z.to_nat (Z.of_nat (length (ramp 502)) - 1)) (ramp 502) /\
    (NoDup (ramp 502) ->
     forall (p : nat) (x : Z), ramp 502 !! p = Some x ->
       ((x ∉ concat (rows inp)) /\ (x ∉ concat (rows out)))
       <-> (Z.of_nat p < Z.of_nat (length (ramp 502)) mod 250 - 2
            \/ Z.of_nat p = Z.of_nat (length (ramp 502)) - 1)) /\
    (forall p : Z, 0 <= p < Z.of_nat (length (ramp 502)) ->
       excluded 250 (Z.of_nat (length (ramp 502))) p = true
       <-> (p < Z.of_nat (length (ramp 502)) mod 250 - 2
            \/ p = Z.of_nat (length (ramp 502)) - 1)).
Proof.
  split; [lia|]. split; [vm_compute; discriminate|]. split; [vm_compute; discriminate|].
  apply (windowing_count_and_excluded 0 250 (ramp 502)).
  - lia.
  - vm_compute. discriminate.
  - vm_compute. discriminate.
Defined.

(** C3. On the ramp [0, 1, ..., 999] the cell computes
    [num_samples = 1000 // 250 = 4], builds the windows 0, 1 and 2, finds
    only 248 elements for the input slice of window 3, and raises
    [ValueError]: it does not return three sample pairs. *)
Theorem windowing_ramp_1000 :
  num_samples_of sample_size (ramp 1000) = 4 /\
  for_each (window_body sample_size (ramp 1000)) (range 3)
    (np_zeros 0 4 250, np_zeros 0 4 250)
  = Ok (filled 0 250 (input_window 250 (ramp 1000)) 4 3,
        filled 0 250 (output_window 250 (ramp 1000)) 4 3) /\
  input_window sample_size (ramp 1000) 3 = ramp 248 /\
  windowing 0 (ramp 1000) = Raise ValueError.
Proof. repeat split; vm_compute; reflexivity. Qed.

Lemma windowing_short_series_witness :
  Z.of_nat (length (ramp 251)) < sample_size + 2 /\
  (Z.of_nat (length (ramp 251)) < sample_size ->
     windowing 0 (ramp 251)
     = Ok (np_zeros 0 0 (Z.to_nat sample_size), np_zeros 0 0 (Z.to_nat sample_size))) /\
  (sample_size <= Z.of_nat (length (ramp 251)) ->
     windowing 0 (ramp 251) = Raise ValueError) /\
  (forall (start stop : Z) (k : nat) (x : Z),
     py_slice (ramp 251) start stop !! k = Some x ->
     exists p : nat, (p < length (ramp 251))%nat /\ ramp 251 !! p = Some x /\
       p = (Z.to_nat (adjust_index (Z.of_nat (length (ramp 251))) start) + k)%nat).
Proof.
  split; [vm_compute; reflexivity|].
  apply (windowing_short_series 0 (ramp 251)). vm_compute. reflexivity.
Defined.

(** C9, as stated, fails on a series of one element: the remainder
    [1 mod 250] is below two, and the cell succeeds, with no window. *)
Lemma windowing_one_element_succeeds :
  Z.of_nat (length [7]) mod sample_size < 2 /\
  windowing 0 [7] = Ok (np_zeros 0 0 250, np_zeros 0 0 250).
Proof. split; vm_compute; reflexivity. Qed.

Lemma windowing_remainder_rule_witness :
  4 <= 250 /\
  (250 <= Z.of_nat (length (ramp 500)) -> Z.of_nat (length (ramp 500)) mod 250 < 2 ->
     let n := Z.to_nat (Z.of_nat (length (ramp 500)) / 250) in
     for_each (window_body 250 (ramp 500)) (range (Z.of_nat (length (ramp 500)) / 250 - 1))
       (np_zeros 0 n (Z.to_nat 250), np_zeros 0 n (Z.to_nat 250))
     = Ok (filled 0 250 (input_window 250 (ramp 500)) n (n - 1),
           filled 0 250 (output_window 250 (ramp 500)) n (n - 1)) /\
     length (input_window 250 (ramp 500) (Z.of_nat (length (ramp 500)) / 250 - 1))
     = Z.to_nat (250 + Z.of_nat (length (ramp 500)) mod 250 - 2) /\
     (length (input_window 250 (ramp 500) (Z.of_nat (length (ramp 500)) / 250 - 1))
      < Z.to_nat 250)%nat /\
     window_body 250 (ramp 500)
       (filled 0 250 (input_window 250 (ramp 500)) n (n - 1),
        filled 0 250 (output_window 250 (ramp 500)) n (n - 1))
       (Z.of_nat (length (ramp 500)) / 250 - 1)
     = Raise ValueError /\
     windowing_with 0 250 (ramp 500) = Raise ValueError) /\
  ((exists io, windowing_with 0 250 (ramp 500) = Ok io)
   <-> (Z.of_nat (length (ramp 500)) < 250 \/ 2 <= Z.of_nat (length (ramp 500)) mod 250)).
Proof.
  split; [lia|]. apply (windowing_remainder_rule 0 250 (ramp 500)). lia.
Defined.

(** ** The forward pass *)

Section ForwardFacts.
Context {R : Type} (zero : R) {Params : Type} `{!Cells R Params}.
Implicit Types (self : Params) (st : fwd_state (R := R)) (xs : list (ndarray R)).

(** Chunking a time axis of [N > 0] steps into [N] chunks gives its
    columns. *)
Lemma chunk_dim1_steps (t : ndarray R) :
  (0 < shape1 t)%nat ->
  chunk_dim1 t (Z.of_nat (shape1 t)) = Ok (time_steps t).
Proof.
  intros HN. unfold chunk_dim1, time_steps.
  set (N := Z.of_nat (shape1 t)).
  assert (0 < N) as HN' by lia.
  rewrite decide_False by lia.
  assert ((N + N - 1) / N = 1) as -> by (symmetry; apply Z.div_unique with (N - 1); lia).
  rewrite decide_False by lia.
  replace ((N + 1 - 1) / 1) with N by (rewrite Z.div_1_r; lia).
  rewrite Z.max_l by lia. f_equal.
  apply list_eq. intros k. rewrite !list_lookup_fmap.
  destruct (range N !! k) as [j|] eqn:Hj; [|reflexivity]. simpl.
  assert (0 <= j < N) as Hjb.
  { apply in_range, list_elem_of_In, list_elem_of_lookup. eauto. }
  do 2 f_equal; lia.
Qed.

(** A time axis without steps cannot be chunked. *)
Lemma chunk_dim1_no_steps (t : ndarray R) :
  shape1 t = 0%nat -> chunk_dim1 t (Z.of_nat (shape1 t)) = Raise RuntimeError.
Proof. intros ->. reflexivity. Qed.

Lemma time_steps_length (t : ndarray R) : length (time_steps t) = shape1 t.
Proof. unfold time_steps. rewrite length_fmap, length_range. lia. Qed.

Lemma time_steps_batch (t : ndarray R) :
  Forall (fun x => shape0 x = shape0 t) (time_steps t).
Proof. unfold time_steps. apply Forall_fmap, Forall_forall. intros; reflexivity. Qed.

Lemma unroll_length self hc hc2 xs : length (unroll self hc hc2 xs) = length xs.
Proof.
  revert hc hc2. induction xs as [|x xs IH]; intros hc hc2; simpl; [reflexivity|].
  rewrite IH. reflexivity.
Qed.

Lemma unroll_app self hc hc2 xs ys :
  unroll self hc hc2 (xs ++ ys)
  = unroll self hc hc2 xs
    ++ unroll self (fst (final_states self hc hc2 xs)) (snd (final_states self hc hc2 xs)) ys.
Proof.
  revert hc hc2. induction xs as [|x xs IH]; intros hc hc2; simpl; [reflexivity|].
  rewrite IH. reflexivity.
Qed.

(** Every prediction has the batch size of the step inputs. *)
Lemma unroll_batch self hc hc2 xs (B : nat) :
  Forall (fun x => shape0 x = B) xs ->
  Forall (fun o => length o = B) (unroll self hc hc2 xs).
Proof.
  revert hc hc2. induction xs as [|x xs IH]; intros hc hc2 Hxs; simpl; [constructor|].
  inversion Hxs as [|? ? Hx Hxs']; subst. constructor.
  - rewrite linear_batch, lstm2_batch, lstm1_batch. reflexivity.
  - apply IH. assumption.
Qed.

Lemma autoregress_length self n hc hc2 o : length (autoregress self n hc hc2 o) = n.
Proof.
  revert hc hc2 o. induction n as [|n IH]; intros hc hc2 o; simpl; [reflexivity|].
  rewrite IH. reflexivity.
Qed.

Lemma autoregress_batch self n hc hc2 o :
  Forall (fun o' => length o' = length o) (autoregress self n hc hc2 o).
Proof.
  revert hc hc2 o. induction n as [|n IH]; intros hc hc2 o; simpl; constructor.
  - rewrite linear_batch, lstm2_batch, lstm1_batch. reflexivity.
  - eapply Forall_impl; [apply IH|]. simpl. intros o' ->.
    rewrite linear_batch, lstm2_batch, lstm1_batch. reflexivity.
Qed.

(** The autoregressive predictions are those of the cell chain fed, at each
    step, with the prediction of the step before. *)
Lemma autoregress_feedback self n hc hc2 o :
  autoregress self n hc hc2 o
  = unroll self hc hc2 (as_column <$> take n (o :: autoregress self n hc hc2 o)).
Proof.
  revert hc hc2 o. induction n as [|n IH]; intros hc hc2 o; simpl; [reflexivity|].
  f_equal. apply IH.
Qed.

(** The first loop: one step per chunk, no exception. *)
Lemma input_loop_spec self xs st :
  exists st',
    input_loop self xs st = Ok st' /\
    outputs st' = outputs st ++ unroll self (h_t st, c_t st) (h_t2 st, c_t2 st) xs /\
    ((h_t st', c_t st'), (h_t2 st', c_t2 st'))
    = final_states self (h_t st, c_t st) (h_t2 st, c_t2 st) xs /\
    output st'
    = match last (unroll self (h_t st, c_t st) (h_t2 st, c_t2 st) xs) with
      | Some o => Some o
      | None => output st
      end.
Proof.
  revert st. induction xs as [|x xs IH]; intros st.
  - exists st. simpl. rewrite app_nil_r. auto.
  - destruct (IH (cell_step self x st)) as (st' & Hrun & Houts & Hst & Hout).
    exists st'. unfold input_loop in *. simpl. rewrite Hrun.
    split; [reflexivity|]. simpl in Houts, Hst, Hout.
    rewrite <- !surjective_pairing in Houts, Hst, Hout.
    rewrite Houts, Hst, Hout, <- app_assoc.
    split; [reflexivity|]. split; [reflexivity|].
    rewrite last_cons.
    destruct (last (unroll self _ _ xs)); reflexivity.
Qed.

(** The second loop, once [output] is bound: one more prediction per
    iteration, each from the one before. *)
Lemma future_loop_spec self (n : nat) st (o : list R) :
  output st = Some o ->
  exists st',
    future_loop self (Z.of_nat n) st = Ok st' /\
    outputs st' = outputs st ++ autoregress self n (h_t st, c_t st) (h_t2 st, c_t2 st) o.
Proof.
  unfold future_loop, range. rewrite Nat2Z.id. generalize 0%nat as lo.
  revert st o. induction n as [|n IH]; intros st o lo Ho.
  - exists st. simpl. rewrite app_nil_r. auto.
  - simpl. rewrite Ho. simpl.
    destruct (IH (cell_step self (as_column o) st) _ (S lo) eq_refl)
      as (st' & Hrun & Houts).
    exists st'. split; [exact Hrun|].
    rewrite Houts. simpl. rewrite <- !surjective_pairing, <- app_assoc. reflexivity.
Qed.

(** The second loop with nothing to do, and with [output] unbound. *)
Lemma future_loop_none self (future : Z) st :
  future <= 0 -> future_loop self future st = Ok st.
Proof. intros Hf. unfold future_loop. rewrite range_nonpos by assumption. reflexivity. Qed.

Lemma future_loop_unbound self (future : Z) st :
  0 < future -> output st = None ->
  future_loop self future st = Raise UnboundLocalError.
Proof.
  intros Hf Ho. unfold future_loop.
  replace future with ((future - 1) + 1) by lia.
  unfold range. replace (Z.to_nat (future - 1 + 1)) with (S (Z.to_nat (future - 1))) by lia.
  simpl. rewrite Ho. reflexivity.
Qed.
End ForwardFacts.

(** ** Stacking the predictions, and the whole forward pass *)

Section ForwardResult.
Context {R : Type} (zero : R) {Params : Type} `{!Cells R Params}.
Implicit Types (self : Params) (outs : list (list R)).

Lemma omap_lookup_column outs (B b : nat) :
  Forall (fun o => length o = B) outs -> (b < B)%nat ->
  length (omap (.!! b) outs) = length outs /\
  forall j : nat, omap (.!! b) outs !! j = outs !! j ≫= (.!! b).
Proof.
  intros Hall Hb. induction Hall as [|o outs Ho Hall IH]; simpl.
  - split; [reflexivity|]. intros j. rewrite lookup_nil. reflexivity.
  - simpl in Ho. assert (is_Some (o !! b)) as [v Hv] by (apply lookup_lt_is_Some; lia).
    rewrite Hv. simpl. destruct IH as [IHlen IHlook]. split; [f_equal; exact IHlen|].
    intros [|j]; simpl; [symmetry; exact Hv | apply IHlook].
Qed.

(** Stacking [n >= 1] predictions of batch size [B] gives a (B, n) tensor
    whose entry [(b, j)] is entry [b] of prediction [j]. *)
Lemma stack_columns_spec outs (B : nat) :
  outs <> [] -> Forall (fun o => length o = B) outs ->
  exists y : ndarray R,
    stack_columns outs = Ok y /\
    shape0 y = B /\ shape1 y = length outs /\ length (rows y) = B /\
    forall b : nat, (b < B)%nat ->
      exists row, rows y !! b = Some row /\ length row = length outs /\
        forall j : nat, row !! j = outs !! j ≫= (.!! b).
Proof.
  intros Hne Hall. destruct outs as [|o outs']; [congruence|].
  assert (length o = B) as HoB by (inversion Hall; assumption).
  unfold stack_columns. rewrite decide_True by (rewrite HoB; assumption).
  eexists. split; [reflexivity|]. simpl. rewrite length_fmap, length_seq.
  repeat split; try assumption.
  intros b Hb. rewrite list_lookup_fmap, lookup_seq_lt by lia. simpl.
  eexists. split; [reflexivity|].
  destruct (omap_lookup_column (o :: outs') B b Hall Hb) as [Hlen Hlook].
  split; [exact Hlen | exact Hlook].
Qed.

Lemma last_drop {X : Type} (l : list X) (x : X) :
  last l = Some x -> drop (length l - 1) l = [x].
Proof.
  intros Hl. destruct (decide (l = [])) as [->|Hne]; [discriminate|].
  destruct (exists_last Hne) as (l' & y & ->).
  rewrite last_snoc in Hl. injection Hl as ->.
  rewrite length_app. simpl.
  replace (length l' + 1 - 1)%nat with (length l') by lia.
  rewrite drop_app_length. reflexivity.
Qed.

(** The list [outputs] at the end of [forward], for an input with at least
    one time step: the predictions over the input steps, from zero states,
    followed by the autoregressive ones. *)
Lemma forward_outputs_spec self (input : ndarray R) (future : Z) :
  (0 < shape1 input)%nat ->
  let z1 := np_zeros zero (shape0 input) hidden_layer1_size in
  let z2 := np_zeros zero (shape0 input) hidden_layer2_size in
  let fs := final_states self (z1, z1) (z2, z2) (time_steps input) in
  exists o : list R,
    last (unroll self (z1, z1) (z2, z2) (time_steps input)) = Some o /\
    forward_outputs zero self input future
    = Ok (unroll self (z1, z1) (z2, z2) (time_steps input)
          ++ autoregress self (Z.to_nat future) (fst fs) (snd fs) o).
Proof.
  intros HN z1 z2 fs.
  destruct (input_loop_spec self (time_steps input) (initial_state zero input))
    as (st1 & Hrun1 & Houts1 & Hst1 & Hout1).
  simpl in Houts1, Hst1, Hout1. fold z1 z2 in Houts1, Hst1, Hout1. fold fs in Hst1.
  destruct (last (unroll self (z1, z1) (z2, z2) (time_steps input))) as [o|] eqn:Hlast.
  2:{ apply last_None in Hlast. apply (f_equal length) in Hlast.
      rewrite unroll_length, time_steps_length in Hlast. simpl in Hlast. lia. }
  exists o. split; [reflexivity|].
  unfold forward_outputs. rewrite chunk_dim1_steps by assumption. simpl.
  rewrite Hrun1. simpl.
  destruct (decide (future <= 0)) as [Hf|Hf].
  - rewrite future_loop_none by assumption. simpl.
    replace (Z.to_nat future) with 0%nat by lia. simpl.
    rewrite Houts1, app_nil_r. reflexivity.
  - destruct (future_loop_spec self (Z.to_nat future) st1 o Hout1) as (st2 & Hrun2 & Houts2).
    rewrite Z2Nat.id in Hrun2 by lia. rewrite Hrun2. simpl.
    rewrite Houts2, Houts1. do 2 f_equal.
    rewrite <- Hst1. reflexivity.
Qed.

(** The batch size of every entry of that list. *)
Lemma forward_outputs_batch self (input : ndarray R) (n : nat) (o : list R) :
  let z1 := np_zeros zero (shape0 input) hidden_layer1_size in
  let z2 := np_zeros zero (shape0 input) hidden_layer2_size in
  let fs := final_states self (z1, z1) (z2, z2) (time_steps input) in
  last (unroll self (z1, z1) (z2, z2) (time_steps input)) = Some o ->
  Forall (fun o' => length o' = shape0 input)
    (unroll self (z1, z1) (z2, z2) (time_steps input)
     ++ autoregress self n (fst fs) (snd fs) o).
Proof.
  intros z1 z2 fs Hlast.
  pose proof (unroll_batch self (z1, z1) (z2, z2) (time_steps input) (shape0 input)
                (time_steps_batch input)) as HU.
  apply Forall_app. split; [exact HU|].
  assert (length o = shape0 input) as Ho.
  { rewrite Forall_forall in HU. apply HU.
    apply last_Some_elem_of. assumption. }
  rewrite <- Ho. apply autoregress_batch.
Qed.

(** [forward] on an input with [N >= 1] time steps returns a tensor of
    shape (B, N + future) holding the entries of [outputs]. *)
Lemma forward_spec self (input : ndarray R) (future : Z) :
  (0 < shape1 input)%nat ->
  exists (outs : list (list R)) (y : ndarray R),
    forward_outputs zero self input future = Ok outs /\
    forward zero self input future = Ok y /\
    length outs = (shape1 input + Z.to_nat future)%nat /\
    shape0 y = shape0 input /\
    shape1 y = (shape1 input + Z.to_nat future)%nat /\
    length (rows y) = shape0 input /\
    forall b : nat, (b < shape0 input)%nat ->
      exists row, rows y !! b = Some row /\
        length row = (shape1 input + Z.to_nat future)%nat /\
        forall j : nat, row !! j = outs !! j ≫= (.!! b).
Proof.
  intros HN.
  destruct (forward_outputs_spec self input future HN) as (o & Hlast & Hfwd).
  pose proof (forward_outputs_batch self input (Z.to_nat future) o Hlast) as Hbatch.
  simpl in Hbatch.
  set (outs := unroll self _ _ (time_steps input) ++ _) in *.
  assert (length outs = (shape1 input + Z.to_nat future)%nat) as Hlen.
  { subst outs. rewrite length_app, unroll_length, time_steps_length, autoregress_length.
    reflexivity. }
  destruct (stack_columns_spec outs (shape0 input)) as (y & Hy & Hs0 & Hs1 & Hrows & Hent).
  { intros ->. simpl in Hlen. lia. }
  { exact Hbatch. }
  exists outs, y. unfold forward. rewrite Hfwd. simpl. rewrite Hy, <- Hlen.
  repeat split; try assumption.
Qed.
End ForwardResult.

(** Every entry of [np.zeros((n, m))] is zero. *)
Lemma np_zeros_entry {A : Type} (zero : A) (n m i k : nat) (x : A) :
  entry (np_zeros zero n m) i k = Some x -> x = zero.
Proof.
  unfold entry, np_zeros. cbn [rows]. intros Hx.
  destruct (replicate n (replicate m zero) !! i) as [row|] eqn:Hrow;
    cbn [mbind option_bind] in Hx; [|discriminate].
  apply lookup_replicate in Hrow as [-> _].
  apply lookup_replicate in Hx as [-> _]. reflexivity.
Qed.


(** ** The step inputs of the forward pass *)

Section StepInputs.
Context {R : Type} (zero : R) {Params : Type} `{!Cells R Params}.
Implicit Types (self : Params).

(** Step [t] of the input is its column [t], as a (B, 1) tensor. *)
Lemma time_steps_lookup (input : ndarray R) (t : nat) :
  (t < shape1 input)%nat ->
  time_steps input !! t
  = Some {| shape0 := shape0 input; shape1 := 1;
            rows := (fun r => take 1 (drop t r)) <$> rows input |}.
Proof.
  intros Ht. unfold time_steps. rewrite list_lookup_fmap, lookup_range by lia.
  cbn [fmap option_fmap option_map]. unfold narrow_dim1. rewrite Nat2Z.id. reflexivity.
Qed.

Lemma column_entry (input : ndarray R) (t b : nat) :
  entry {| shape0 := shape0 input; shape1 := 1;
           rows := (fun r => take 1 (drop t r)) <$> rows input |} b 0
  = entry input b t.
Proof.
  unfold entry. cbn [rows]. rewrite list_lookup_fmap.
  destruct (rows input !! b) as [r|]; [|reflexivity].
  cbn [fmap option_fmap option_map mbind option_bind].
  rewrite lookup_take_lt, lookup_drop by lia. f_equal. lia.
Qed.

Lemma as_column_entry (o : list R) (b : nat) :
  entry {| shape0 := length o; shape1 := 1; rows := (fun v => [v]) <$> o |} b 0 = o !! b.
Proof.
  unfold entry. cbn [rows]. rewrite list_lookup_fmap.
  destruct (o !! b); reflexivity.
Qed.

(** The list [outputs] is the cell chain unrolled, from zero states, over
    the columns of the input followed by its own entries from index [N - 1]
    on, each as a (B, 1) tensor. *)
Lemma forward_outputs_feedback self (input : ndarray R) (future : Z) :
  (0 < shape1 input)%nat ->
  let z1 := np_zeros zero (shape0 input) hidden_layer1_size in
  let z2 := np_zeros zero (shape0 input) hidden_layer2_size in
  exists outs : list (list R),
    forward_outputs zero self input future = Ok outs /\
    length outs = (shape1 input + Z.to_nat future)%nat /\
    outs = unroll self (z1, z1) (z2, z2)
             (time_steps input
              ++ (as_column <$> take (Z.to_nat future) (drop (shape1 input - 1) outs))) /\
    forward_outputs zero self input 0 = Ok (take (shape1 input) outs).
Proof.
  intros HN z1 z2.
  destruct (forward_outputs_spec zero self input future HN) as (o & Hlast & Hfwd).
  destruct (forward_outputs_spec zero self input 0 HN) as (o0 & _ & Hfwd0).
  fold z1 z2 in Hlast, Hfwd, Hfwd0.
  set (U := unroll self (z1, z1) (z2, z2) (time_steps input)) in *.
  set (fs := final_states self (z1, z1) (z2, z2) (time_steps input)) in *.
  assert (length U = shape1 input) as HU
    by (subst U; rewrite unroll_length, time_steps_length; reflexivity).
  eexists. split; [exact Hfwd|].
  split; [rewrite length_app, HU, autoregress_length; reflexivity|].
  split.
  - rewrite drop_app_le by lia. rewrite <- HU, (last_drop U o Hlast). simpl.
    rewrite unroll_app. fold U fs.
    rewrite <- autoregress_feedback. reflexivity.
  - rewrite Hfwd0. simpl. rewrite app_nil_r, <- HU.
    rewrite take_app_length. reflexivity.
Qed.

(** Which tensor each step is fed. *)
Lemma feedback_steps_lookup (input : ndarray R) (outs : list (list R)) (F t : nat)
    (o : list R) :
  (1 <= shape1 input)%nat -> (shape1 input <= t < shape1 input + F)%nat ->
  outs !! (t - 1)%nat = Some o ->
  (time_steps input ++ (as_column <$> take F (drop (shape1 input - 1) outs))) !! t
  = Some {| shape0 := length o; shape1 := 1; rows := (fun v => [v]) <$> o |}.
Proof.
  intros HN Ht Ho.
  rewrite lookup_app_r by (rewrite time_steps_length; lia).
  rewrite time_steps_length, list_lookup_fmap, lookup_take_lt, lookup_drop by lia.
  replace (shape1 input - 1 + (t - shape1 input))%nat with (t - 1)%nat by lia.
  rewrite Ho. reflexivity.
Qed.
End StepInputs.

(** ** The forward pass: length, feedback, zero start, empty input *)

Section ForwardClaims.
Context {R : Type} (zero : R) {Params : Type} `{!Cells R Params}.
Context {Grad OptState : Type}.
Implicit Types (self : Params) (nb : notebook (R := R) (Params := Params)
                                       (Grad := Grad) (OptState := OptState)).

(** C5. For an input with [N >= 1] time steps and [future = F >= 0], the
    forward pass returns a tensor with [N + F] predictions per batch row,
    the entries of the list [outputs].  That list is what the cell chain
    yields, from zero states, over [N + F] step inputs.  Step [t < N] is fed
    column [t] of the input.  Step [t >= N] is fed the (B, 1) tensor whose
    entries are those of the prediction [outputs[t-1]], the one computed at
    the step before, and no column of the input.  The first [N]
    predictions are those of [future = 0]. *)
Theorem forward_length_and_feedback self (input : ndarray R) (future : Z) :
  (1 <= shape1 input)%nat -> 0 <= future ->
  let z1 := np_zeros zero (shape0 input) hidden_layer1_size in
  let z2 := np_zeros zero (shape0 input) hidden_layer2_size in
  exists (outs : list (list R)) (y : ndarray R) (steps : list (ndarray R)),
    forward_outputs zero self input future = Ok outs /\
    forward zero self input future = Ok y /\
    Z.of_nat (length outs) = Z.of_nat (shape1 input) + future /\
    shape0 y = shape0 input /\
    Z.of_nat (shape1 y) = Z.of_nat (shape1 input) + future /\
    (forall b : nat, (b < shape0 input)%nat ->
       exists row, rows y !! b = Some row /\
         Z.of_nat (length row) = Z.of_nat (shape1 input) + future /\
         forall j : nat, row !! j = outs !! j ≫= (.!! b)) /\
    outs = unroll self (z1, z1) (z2, z2) steps /\
    length steps = length outs /\
    (forall t : nat, (t < shape1 input)%nat ->
       exists x : ndarray R,
         steps !! t = Some x /\
         x = {| shape0 := shape0 input; shape1 := 1;
                rows := (fun r => take 1 (drop t r)) <$> rows input |} /\
         forall b : nat, entry x b 0 = entry input b t) /\
    (forall t : nat, (shape1 input <= t < shape1 input + Z.to_nat future)%nat ->
       exists (o : list R) (x : ndarray R),
         outs !! (t - 1)%nat = Some o /\
         steps !! t = Some x /\
         x = {| shape0 := length o; shape1 := 1; rows := (fun v => [v]) <$> o |} /\
         forall b : nat, entry x b 0 = o !! b) /\
    forward_outputs zero self input 0 = Ok (take (shape1 input) outs).
Proof.
  intros HN Hf z1 z2.
  destruct (forward_spec zero self input future ltac:(lia))
    as (outs & y & Houts & Hy & Hlen & Hs0 & Hs1 & _ & Hent).
  destruct (forward_outputs_feedback zero self input future ltac:(lia))
    as (outs2 & Houts2 & _ & Hfb & Hzero).
  fold z1 z2 in Hfb.
  rewrite Houts in Houts2. injection Houts2 as <-.
  exists outs, y,
    (time_steps input
     ++ (as_column <$> take (Z.to_nat future) (drop (shape1 input - 1) outs))).
  split; [exact Houts|]. split; [exact Hy|]. split; [lia|]. split; [exact Hs0|].
  split; [lia|].
  split.
  { intros b Hb. destruct (Hent b Hb) as (row & Hrow & Hrl & Hrj).
    exists row. split; [exact Hrow|]. split; [lia | exact Hrj]. }
  split; [exact Hfb|].
  split.
  { rewrite length_app, time_steps_length, length_fmap, length_take, length_drop. lia. }
  split.
  { intros t Ht. eexists. split; [|split; [reflexivity|]].
    - rewrite lookup_app_l by (rewrite time_steps_length; lia).
      apply time_steps_lookup. assumption.
    - intros b. apply column_entry. }
  split; [|exact Hzero].
  intros t Ht.
  assert (is_Some (outs !! (t - 1)%nat)) as [o Ho] by (apply lookup_lt_is_Some; lia).
  exists o. eexists. split; [exact Ho|]. split; [|split; [reflexivity|]].
  - apply feedback_steps_lookup; assumption.
  - intros b. apply as_column_entry.
Qed.


(** C10. On an input without time steps the forward pass raises: chunking
    the time axis into zero chunks is rejected, whatever [future] is.  Had
    the first loop run over no chunk, the second loop with [future > 0]
    would read [output] before any assignment and raise as well, and
    stacking an empty list of predictions is rejected too. *)
Theorem forward_rejects_empty_input self (input : ndarray R) (future : Z) :
  shape1 input = 0%nat ->
  chunk_dim1 input (Z.of_nat (shape1 input)) = Raise RuntimeError /\
  forward_outputs zero self input future = Raise RuntimeError /\
  forward zero self input future = Raise RuntimeError /\
  (0 < future ->
   bind (input_loop self [] (initial_state zero input)) (future_loop self future)
   = Raise UnboundLocalError) /\
  stack_columns (R := R) [] = Raise RuntimeError.
Proof.
  intros HN.
  assert (chunk_dim1 input (Z.of_nat (shape1 input)) = Raise RuntimeError) as Hchunk
    by (apply chunk_dim1_no_steps; assumption).
  split; [exact Hchunk|].
  unfold forward, forward_outputs. rewrite Hchunk. simpl.
  repeat split.
  intros Hf. apply future_loop_unbound; [assumption | reflexivity].
Qed.
End ForwardClaims.

(** ** The training loop and the forecast cell *)

Section NotebookClaims.
Context {R : Type} (zero : R) {Params : Type} `{!Cells R Params}.
Context {Grad OptState : Type}.
Context (criteria : ndarray R -> ndarray R -> R).
Context (loss_gradient : Params -> ndarray R -> ndarray R -> Grad).
Context (grad_zero : Grad) (grad_add : Grad -> Grad -> Grad).
Context (adam_step : OptState -> Params -> Grad -> Params * OptState).
Implicit Types (nb : notebook (R := R) (Params := Params)
                       (Grad := Grad) (OptState := OptState)).

Abbreviation epoch_body' := (epoch_body zero criteria loss_gradient grad_zero grad_add adam_step).
Abbreviation train' := (train zero criteria loss_gradient grad_zero grad_add adam_step).

(** The events of one epoch, in the order the loop body runs them. *)
Abbreviation epoch_events mode :=
  [EvForward 0 mode; EvLoss; EvZeroGrad; EvBackward; EvUpdate].

(** One epoch on an input with at least one time step: it runs to its
    end, adds one loss and its five events, and steps the optimizer with the
    gradient accumulated from zero. *)
Lemma epoch_body_spec (input_t target_t : ndarray R) nb (epoch : Z) :
  (0 < shape1 input_t)%nat ->
  exists (out : ndarray R) nb',
    forward zero (pred nb) input_t 0 = Ok out /\
    epoch_body' input_t target_t nb epoch = Ok nb' /\
    log nb' = log nb ++ epoch_events (grad_enabled nb) /\
    losses nb' = losses nb ++ [criteria out target_t] /\
    grad_enabled nb' = grad_enabled nb /\
    grad nb' = grad_add grad_zero (loss_gradient (pred nb) input_t target_t) /\
    (pred nb', optimizer nb') = adam_step (optimizer nb) (pred nb) (grad nb').
Proof.
  intros HN.
  destruct (forward_spec zero (pred nb) input_t 0 HN) as (outs & out & _ & Hout & _).
  exists out. eexists. split; [exact Hout|].
  unfold epoch_body, call_pred. rewrite Hout. simpl.
  split; [reflexivity|]. simpl. rewrite <- !app_assoc. simpl.
  repeat split. symmetry. apply surjective_pairing.
Qed.

Lemma epochs_spec (input_t target_t : ndarray R) (es : list Z) nb :
  (0 < shape1 input_t)%nat ->
  exists nb',
    for_each (epoch_body' input_t target_t) es nb = Ok nb' /\
    log nb' = log nb ++ concat (replicate (length es) (epoch_events (grad_enabled nb))) /\
    length (losses nb') = (length (losses nb) + length es)%nat /\
    grad_enabled nb' = grad_enabled nb.
Proof.
  intros HN. revert nb. induction es as [|e es IH]; intros nb.
  - exists nb. simpl. rewrite app_nil_r. repeat split. lia.
  - destruct (epoch_body_spec input_t target_t nb e HN)
      as (out & nb1 & _ & Hbody & Hlog & Hloss & Hmode & _).
    destruct (IH nb1) as (nb' & Hrun & Hlog' & Hloss' & Hmode').
    exists nb'. cbn [for_each]. rewrite Hbody. cbn [bind].
    split; [exact Hrun|].
    rewrite Hlog', Hloss', Hmode', Hlog, Hloss, Hmode, length_app.
    cbn [length replicate concat]. rewrite <- !app_assoc.
    repeat split. lia.
Qed.

(** C7, as the loop runs. Each epoch runs, in this order: forward (the
    predictor with future = 0 on the whole training input), loss (appended
    to the loss history), zeroing of the gradient accumulators, backward,
    optimizer step.  On a training input with at least one time step the
    loop runs this sequence for every one of the [n_epochs] epochs, with no
    exit before the last, and leaves [n_epochs] losses. *)
Theorem training_epoch_order (n_epochs : Z) (input_t target_t : ndarray R) nb :
  (0 < shape1 input_t)%nat ->
  exists nb',
    train' n_epochs input_t target_t nb = Ok nb' /\
    log nb'
    = log nb ++ concat (replicate (Z.to_nat n_epochs) (epoch_events (grad_enabled nb))) /\
    length (losses nb') = Z.to_nat n_epochs /\
    grad_enabled nb' = grad_enabled nb.
Proof.
  intros HN. unfold train.
  destruct (epochs_spec input_t target_t (arange 1 (n_epochs + 1))
              {| pred := pred nb; grad := grad nb; optimizer := optimizer nb;
                 losses := []; grad_enabled := grad_enabled nb; log := log nb |} HN)
    as (nb' & Hrun & Hlog & Hloss & Hmode).
  exists nb'. split; [exact Hrun|].
  unfold arange in Hlog, Hloss. rewrite length_fmap, length_range in Hlog, Hloss.
  replace (Z.to_nat (n_epochs + 1 - 1)) with (Z.to_nat n_epochs) in Hlog, Hloss by lia.
  simpl in Hlog, Hloss, Hmode. auto.
Qed.

(** C8. On a series with at least [sample_size] observations and for a
    horizon [days > 0], the forecast cell feeds the predictor the one-row
    tensor made of the last [sample_size] observations, calls it once with
    [future = days] while gradient tracking is off, and returns the last
    [days] entries of row 0 of the result.  The parameters, the gradient
    accumulators, the optimizer state and the loss history are the same
    after the call, and the gradient mode is back to what it was. *)
Theorem forecast_extraction (days : Z) (source : list R) nb :
  sample_size <= Z.of_nat (length source) -> 0 < days ->
  let final_input :=
    {| shape0 := 1; shape1 := Z.to_nat sample_size;
       rows := [drop (length source - Z.to_nat sample_size) source] |} in
  exists (y : ndarray R) (y0 f : list R) nb',
    reshape_1 (py_slice_from source (- sample_size)) sample_size = Ok final_input /\
    length (drop (length source - Z.to_nat sample_size) source) = Z.to_nat sample_size /\
    forward zero (pred nb) final_input days = Ok y /\
    rows y !! 0%nat = Some y0 /\
    length y0 = (Z.to_nat sample_size + Z.to_nat days)%nat /\
    forecast_with zero days source nb = Ok (nb', f) /\
    f = drop (Z.to_nat sample_size) y0 /\
    length f = Z.to_nat days /\
    pred nb' = pred nb /\ grad nb' = grad nb /\ optimizer nb' = optimizer nb /\
    losses nb' = losses nb /\ grad_enabled nb' = grad_enabled nb /\
    log nb' = log nb ++ [EvForward days false].
Proof.
  intros HL Hd final_input.
  assert (0 < sample_size) as HW by (unfold sample_size; lia).
  assert (py_slice_from source (- sample_size)
          = drop (length source - Z.to_nat sample_size) source) as Hslice.
  { unfold py_slice_from. rewrite adjust_index_neg by lia. f_equal. lia. }
  assert (length (drop (length source - Z.to_nat sample_size) source)
          = Z.to_nat sample_size) as Hlen by (rewrite length_drop; lia).
  assert (reshape_1 (py_slice_from source (- sample_size)) sample_size = Ok final_input)
    as Hreshape.
  { unfold reshape_1. rewrite Hslice, decide_True by (rewrite Hlen; lia). reflexivity. }
  destruct (forward_spec zero (pred nb) final_input days) as
    (outs & y & _ & Hy & _ & _ & _ & _ & Hent); [simpl; lia|].
  destruct (Hent 0%nat ltac:(simpl; lia)) as (y0 & Hy0 & Hy0len & _).
  change (shape1 final_input) with (Z.to_nat sample_size) in Hy0len.
  exists y, y0, (drop (Z.to_nat sample_size) y0). eexists.
  split; [exact Hreshape|]. split; [exact Hlen|]. split; [exact Hy|].
  split; [exact Hy0|]. split; [exact Hy0len|].
  split.
  { unfold forecast_with. rewrite Hreshape. cbn [bind].
    unfold call_pred. cbn [pred set_grad_enabled]. rewrite Hy. cbn [bind fst snd].
    rewrite Hy0. do 2 f_equal.
    unfold py_slice_from. rewrite adjust_index_neg by lia. f_equal. lia. }
  split; [reflexivity|]. split; [rewrite length_drop; lia|].
  simpl. repeat split.
Qed.
End NotebookClaims.

(** ** The predictor, the training loop and the forecast on the small model *)

Example forward_toy :
  forward 0 5 toy_input 2
  = Ok {| shape0 := 2; shape1 := 5;
          rows := [[3755; 15757; 39759; 149160761; 559651136263];
                   [15005; 49507; 107259; 402387011; 1509755958763]] |}.
Proof. vm_compute. reflexivity. Qed.

Lemma forward_length_and_feedback_witness :
  (1 <= shape1 toy_input)%nat /\ 0 <= 2 /\
  let z1 := np_zeros 0 (shape0 toy_input) hidden_layer1_size in
  let z2 := np_zeros 0 (shape0 toy_input) hidden_layer2_size in
  exists (outs : list (list Z)) (y : ndarray Z) (steps : list (ndarray Z)),
    forward_outputs 0 5 toy_input 2 = Ok outs /\
    forward 0 5 toy_input 2 = Ok y /\
    Z.of_nat (length outs) = Z.of_nat (shape1 toy_input) + 2 /\
    shape0 y = shape0 toy_input /\
    Z.of_nat (shape1 y) = Z.of_nat (shape1 toy_input) + 2 /\
    (forall b : nat, (b < shape0 toy_input)%nat ->
       exists row, rows y !! b = Some row /\
         Z.of_nat (length row) = Z.of_nat (shape1 toy_input) + 2 /\
         forall j : nat, row !! j = outs !! j ≫= (.!! b)) /\
    outs = unroll 5 (z1, z1) (z2, z2) steps /\
    length steps = length outs /\
    (forall t : nat, (t < shape1 toy_input)%nat ->
       exists x : ndarray Z,
         steps !! t = Some x /\
         x = {| shape0 := shape0 toy_input; shape1 := 1;
                rows := (fun r => take 1 (drop t r)) <$> rows toy_input |} /\
         forall b : nat, entry x b 0 = entry toy_input b t) /\
    (forall t : nat, (shape1 toy_input <= t < shape1 toy_input + Z.to_nat 2)%nat ->
       exists (o : list Z) (x : ndarray Z),
         outs !! (t - 1)%nat = Some o /\
         steps !! t = Some x /\
         x = {| shape0 := length o; shape1 := 1; rows := (fun v => [v]) <$> o |} /\
         forall b : nat, entry x b 0 = o !! b) /\
    forward_outputs 0 5 toy_input 0 = Ok (take (shape1 toy_input) outs).
Proof.
  split; [simpl; lia|]. split; [lia|].
  apply (forward_length_and_feedback 0 5 toy_input 2).
  - simpl. lia.
  - lia.
Defined.


Lemma forward_rejects_empty_input_witness :
  shape1 toy_empty_input = 0%nat /\
  chunk_dim1 toy_empty_input (Z.of_nat (shape1 toy_empty_input)) = Raise RuntimeError /\
  forward_outputs 0 5 toy_empty_input 2 = Raise RuntimeError /\
  forward 0 5 toy_empty_input 2 = Raise RuntimeError /\
  (0 < 2 ->
   bind (input_loop 5 [] (initial_state 0 toy_empty_input)) (future_loop 5 2)
   = Raise UnboundLocalError) /\
  stack_columns (R := Z) [] = Raise RuntimeError.
Proof.
  split; [reflexivity|].
  apply (forward_rejects_empty_input 0 5 toy_empty_input 2). reflexivity.
Defined.

(** C7, as stated, fails on one epoch of the small model: the gradient
    accumulators are zeroed after the forward pass and the loss, not before
    them. *)
Lemma training_zeroes_gradients_after_loss :
  exists nb',
    toy_train 1 toy_input toy_input (toy_notebook 1) = Ok nb' /\
    log nb' = [EvForward 0 true; EvLoss; EvZeroGrad; EvBackward; EvUpdate] /\
    log nb' <> [EvZeroGrad; EvForward 0 true; EvLoss; EvBackward; EvUpdate].
Proof.
  eexists. split; [vm_compute; reflexivity|]. split; [reflexivity|]. discriminate.
Qed.

Lemma training_epoch_order_witness :
  (0 < shape1 toy_input)%nat /\
  exists nb',
    toy_train 2 toy_input toy_input (toy_notebook 1) = Ok nb' /\
    log nb'
    = log (toy_notebook 1)
      ++ concat (replicate (Z.to_nat 2)
                   [EvForward 0 (grad_enabled (toy_notebook 1)); EvLoss; EvZeroGrad;
                    EvBackward; EvUpdate]) /\
    length (losses nb') = Z.to_nat 2 /\
    grad_enabled nb' = grad_enabled (toy_notebook 1).
Proof.
  split; [simpl; lia|].
  apply (training_epoch_order 0 toy_loss toy_gradient 0 Z.add toy_adam 2
           toy_input toy_input (toy_notebook 1)).
  simpl. lia.
Defined.

Lemma forecast_extraction_witness :
  sample_size <= Z.of_nat (length (ramp 300)) /\ 0 < 30 /\
  let final_input :=
    {| shape0 := 1; shape1 := Z.to_nat sample_size;
       rows := [drop (length (ramp 300) - Z.to_nat sample_size) (ramp 300)] |} in
  exists (y : ndarray Z) (y0 f : list Z) nb',
    reshape_1 (py_slice_from (ramp 300) (- sample_size)) sample_size = Ok final_input /\
    length (drop (length (ramp 300) - Z.to_nat sample_size) (ramp 300))
    = Z.to_nat sample_size /\
    forward 0 (pred (toy_notebook 1)) final_input 30 = Ok y /\
    rows y !! 0%nat = Some y0 /\
    length y0 = (Z.to_nat sample_size + Z.to_nat 30)%nat /\
    forecast_with 0 30 (ramp 300) (toy_notebook 1) = Ok (nb', f) /\
    f = drop (Z.to_nat sample_size) y0 /\
    length f = Z.to_nat 30 /\
    pred nb' = pred (toy_notebook 1) /\ grad nb' = grad (toy_notebook 1) /\
    optimizer nb' = optimizer (toy_notebook 1) /\
    losses nb' = losses (toy_notebook 1) /\
    grad_enabled nb' = grad_enabled (toy_notebook 1) /\
    log nb' = log (toy_notebook 1) ++ [EvForward 30 false].
Proof.
  split; [vm_compute; discriminate|]. split; [lia|].
  apply (forecast_extraction 0 30 (ramp 300) (toy_notebook 1)).
  - vm_compute. discriminate.
  - lia.
Defined.

(** * Further properties of the cells *)

(** ** The windows as a tiling of the series *)

Section WindowTiling.
Context {A : Type} (zero : A).

(** When the remainder is at least two, every window is a full one. *)
Lemma windows_full (W : Z) (source : list A) (i : nat) :
  0 < W ->
  Z.of_nat (length source) < W \/ 2 <= Z.of_nat (length source) mod W ->
  (i < Z.to_nat (Z.of_nat (length source) / W))%nat ->
  2 <= Z.of_nat (length source) mod W /\
  0 <= Z.of_nat (length source) - (Z.of_nat i + 1) * W - 2.
Proof.
  intros HW Hcase Hi.
  set (L := Z.of_nat (length source)) in *.
  pose proof (Z.div_mod L W ltac:(lia)) as Hdm.
  pose proof (Z.mod_pos_bound L W HW) as Hr.
  assert (2 <= L mod W) as Hr2.
  { destruct Hcase as [Hlt|?]; [|assumption].
    rewrite Z.div_small in Hi by (subst L; lia). simpl in Hi. lia. }
  split; [assumption|]. nia.
Qed.

(** The rows of [input], read from the last row to the first, are one run
    of consecutive elements of the series: the windows follow one another
    without gap or overlap, the row 0 holding the most recent one.  The run
    starts [L mod W - 2] places after the head; the rows of [output] are
    the run one place later. *)
Theorem windowing_tiles_series (W : Z) (source : list A) :
  0 < W -> 2 <= Z.of_nat (length source) mod W ->
  exists inp out : ndarray A,
    windowing_with zero W source = Ok (inp, out) /\
    concat (reverse (rows inp))
    = take (Z.to_nat (W * (Z.of_nat (length source) / W)))
        (drop (Z.to_nat (Z.of_nat (length source) mod W - 2)) source) /\
    concat (reverse (rows out))
    = take (Z.to_nat (W * (Z.of_nat (length source) / W)))
        (drop (Z.to_nat (Z.of_nat (length source) mod W - 1)) source).
Proof.
  intros HW Hr2.
  set (L := Z.of_nat (length source)) in *.
  pose proof (Z.div_mod L W ltac:(lia)) as Hdm.
  pose proof (Z.mod_pos_bound L W HW) as Hr.
  assert (0 <= L / W) as Hq by (apply Z.div_pos; subst L; lia).
  do 2 eexists. split; [apply windowing_with_ok; fold L; [assumption | right; assumption]|].
  fold L. cbn [rows filled]. rewrite Nat.sub_diag. cbn [replicate]. rewrite !app_nil_r.
  split.
  - rewrite (concat_reverse_windows W 2 source) by
      (try lia; try (fold L; nia);
       intros i Hi; apply input_window_full; fold L; nia).
    fold L. f_equal; [|f_equal]; nia.
  - rewrite (concat_reverse_windows W 1 source) by
      (try lia; try (fold L; nia);
       intros i Hi; apply output_window_full; fold L; nia).
    fold L. f_equal; [|f_equal]; nia.
Qed.

(** Two lists of the same length that agree between two positions have the
    same segments there. *)
Lemma segment_ext (l l' : list A) (s n : nat) :
  (forall p : nat, (s <= p < s + n)%nat -> l !! p = l' !! p) ->
  take n (drop s l) = take n (drop s l').
Proof.
  intros Hagree. apply list_eq. intros k.
  destruct (decide (k < n)%nat) as [Hk|Hk].
  - rewrite !lookup_take_lt, !lookup_drop by assumption. apply Hagree. lia.
  - rewrite !lookup_take_ge by lia. reflexivity.
Qed.

(** The cell reads neither the first [L mod 250 - 2] observations nor the
    last one: two series of the same length that agree everywhere else give
    the same result, arrays or exception. *)
Theorem windowing_ignores_head_and_last (source source' : list A) :
  length source = length source' ->
  let h := Z.to_nat (Z.of_nat (length source) mod sample_size - 2) in
  take (length source - 1 - h) (drop h source)
  = take (length source - 1 - h) (drop h source') ->
  windowing zero source = windowing zero source'.
Proof.
  intros Hlen h Hseg. unfold windowing.
  assert (0 < sample_size) as HW by (unfold sample_size; lia).
  assert (4 <= sample_size) as HW4 by (unfold sample_size; lia).
  set (L := Z.of_nat (length source)) in *.
  assert (Z.of_nat (length source') = L) as HL' by (subst L; lia).
  assert (forall p : nat, (h <= p < length source - 1)%nat -> source !! p = source' !! p)
    as Hagree.
  { intros p Hp.
    assert (take (length source - 1 - h) (drop h source) !! (p - h)%nat
            = take (length source - 1 - h) (drop h source') !! (p - h)%nat) as Hk
      by (rewrite Hseg; reflexivity).
    rewrite !lookup_take_lt, !lookup_drop in Hk by lia.
    replace (h + (p - h))%nat with p in Hk by lia. exact Hk. }
  destruct (decide (L < sample_size \/ 2 <= L mod sample_size)) as [Hcase|Hcase].
  - rewrite (windowing_with_ok zero sample_size source) by (fold L; assumption).
    rewrite (windowing_with_ok zero sample_size source') by (rewrite ?HL'; assumption).
    rewrite HL'. fold L.
    assert (forall f f' : Z -> list A,
              (forall i : nat, (i < Z.to_nat (L / sample_size))%nat ->
                 f (Z.of_nat i) = f' (Z.of_nat i)) ->
              filled zero sample_size f (Z.to_nat (L / sample_size)) (Z.to_nat (L / sample_size))
              = filled zero sample_size f' (Z.to_nat (L / sample_size))
                  (Z.to_nat (L / sample_size))) as Hfilled.
    { intros f f' Hff. unfold filled. do 2 f_equal.
      apply list_eq. intros k. rewrite !list_lookup_fmap.
      destruct (decide (k < Z.to_nat (L / sample_size))%nat) as [Hk|Hk].
      - rewrite lookup_range by lia. simpl. f_equal. apply Hff. assumption.
      - rewrite lookup_ge_None_2 by (rewrite length_range; lia). reflexivity. }
    f_equal. f_equal.
    + apply Hfilled. intros i Hi.
      destruct (windows_full sample_size source i HW Hcase Hi) as [Hr2 Hs].
      fold L in Hr2, Hs.
      rewrite (input_window_full sample_size source), (input_window_full sample_size source')
        by (rewrite ?HL'; fold L; lia).
      rewrite HL'. fold L. apply segment_ext. intros p Hp. apply Hagree. subst h. fold L.
      pose proof (Z.div_mod L sample_size ltac:(lia)) as Hdm.
      assert ((Z.of_nat i + 1) * sample_size <= sample_size * (L / sample_size)) by nia.
      assert (0 <= Z.of_nat i * sample_size) by nia.
      assert (Z.of_nat (length source) = L) as HLs by reflexivity.
      lia.
    + apply Hfilled. intros i Hi.
      destruct (windows_full sample_size source i HW Hcase Hi) as [Hr2 Hs].
      fold L in Hr2, Hs.
      rewrite (output_window_full sample_size source),
        (output_window_full sample_size source') by (rewrite ?HL'; fold L; lia).
      rewrite HL'. fold L. apply segment_ext. intros p Hp. apply Hagree. subst h. fold L.
      pose proof (Z.div_mod L sample_size ltac:(lia)) as Hdm.
      assert ((Z.of_nat i + 1) * sample_size <= sample_size * (L / sample_size)) by nia.
      assert (0 <= Z.of_nat i * sample_size) by nia.
      assert (Z.of_nat (length source) = L) as HLs by reflexivity.
      lia.
  - destruct (windowing_with_error zero sample_size source HW4) as (_ & _ & _ & ->);
      [fold L; lia | fold L; lia |].
    destruct (windowing_with_error zero sample_size source' HW4) as (_ & _ & _ & ->);
      [rewrite HL'; lia | rewrite HL'; lia |].
    reflexivity.
Qed.

(** The arrays the cell returns have the same shape, [num_samples] rows of
    250 entries, and their rows match it. *)
Lemma windowing_ok_shapes (source : list A) (inp out : ndarray A) :
  windowing zero source = Ok (inp, out) ->
  shape0 inp = shape0 out /\ shape1 inp = 250%nat /\ shape1 out = 250%nat /\
  well_formed inp /\ well_formed out.
Proof.
  unfold windowing. intros Hok.
  assert (0 < sample_size) as HW by (unfold sample_size; lia).
  set (L := Z.of_nat (length source)) in *.
  assert (L < sample_size \/ 2 <= L mod sample_size) as Hcase.
  { apply (windowing_with_ok_iff zero sample_size source); [unfold sample_size; lia|].
    eexists; eassumption. }
  rewrite (windowing_with_ok zero sample_size source) in Hok by (fold L; assumption).
  fold L in Hok. injection Hok as <- <-.
  unfold well_formed, filled. cbn [shape0 shape1 rows].
  rewrite Nat.sub_diag. cbn [replicate]. rewrite !app_nil_r, !length_fmap, !length_range.
  rewrite Nat2Z.id.
  repeat split; try reflexivity.
  - apply Forall_fmap, Forall_forall. intros i Hi.
    apply list_elem_of_In, in_range in Hi. simpl.
    destruct (windows_full sample_size source (Z.to_nat i) HW Hcase ltac:(fold L; lia))
      as [_ Hs].
    rewrite Z2Nat.id in Hs by lia.
    apply input_window_full_length; lia.
  - apply Forall_fmap, Forall_forall. intros i Hi.
    apply list_elem_of_In, in_range in Hi. simpl.
    destruct (windows_full sample_size source (Z.to_nat i) HW Hcase ltac:(fold L; lia))
      as [_ Hs].
    rewrite Z2Nat.id in Hs by lia.
    apply output_window_full_length; lia.
Qed.
End WindowTiling.

(** ** The forward pass: causality, longer horizons, negative horizons *)

Lemma take_range (N : Z) (n : nat) :
  (n <= Z.to_nat N)%nat -> take n (range N) = range (Z.of_nat n).
Proof.
  intros Hn. apply list_eq. intros k.
  destruct (decide (k < n)%nat) as [Hk|Hk].
  - rewrite lookup_take_lt, !lookup_range by lia. reflexivity.
  - rewrite lookup_take_ge by lia.
    rewrite lookup_ge_None_2 by (rewrite length_range; lia). reflexivity.
Qed.

Lemma take_1_drop_take {X : Type} (r : list X) (j n : nat) :
  (j < n)%nat -> take 1 (drop j (take n r)) = take 1 (drop j r).
Proof.
  intros Hj. apply list_eq. intros [|k].
  - rewrite !lookup_take_lt, !lookup_drop, lookup_take_lt by lia. reflexivity.
  - rewrite !lookup_take_ge by lia. reflexivity.
Qed.

Section ForwardExtras.
Context {R : Type} (zero : R) {Params : Type} `{!Cells R Params}.
Implicit Types (self : Params) (xs : list (ndarray R)).

Lemma unroll_take self hc hc2 xs (n : nat) :
  take n (unroll self hc hc2 xs) = unroll self hc hc2 (take n xs).
Proof.
  revert hc hc2 n. induction xs as [|x xs IH]; intros hc hc2 [|n]; simpl;
    try reflexivity.
  rewrite IH. reflexivity.
Qed.

Lemma autoregress_take self (n m : nat) hc hc2 (o : list R) :
  (n <= m)%nat ->
  take n (autoregress self m hc hc2 o) = autoregress self n hc hc2 o.
Proof.
  revert m hc hc2 o. induction n as [|n IH]; intros [|m] hc hc2 o Hnm; simpl;
    try reflexivity; try lia.
  rewrite IH by lia. reflexivity.
Qed.

(** Inputs with the same first [n] columns have the same first [n] steps. *)
Lemma time_steps_prefix (input input' : ndarray R) (n : nat) :
  shape0 input = shape0 input' ->
  (n <= shape1 input)%nat -> (n <= shape1 input')%nat ->
  take n <$> rows input = take n <$> rows input' ->
  take n (time_steps input) = take n (time_steps input').
Proof.
  intros HB Hn Hn' Hrows. unfold time_steps.
  rewrite <- !fmap_take, !take_range by lia.
  apply list_eq. intros k. rewrite !list_lookup_fmap.
  destruct (decide (k < n)%nat) as [Hk|Hk].
  - rewrite lookup_range by lia. simpl. f_equal.
    unfold narrow_dim1. rewrite HB. f_equal. rewrite Nat2Z.id.
    transitivity ((fun r => take 1 (drop k r)) <$> (take n <$> rows input)).
    + rewrite <- list_fmap_compose. apply list_fmap_ext. intros ? r _. simpl.
      symmetry. apply take_1_drop_take. assumption.
    + rewrite Hrows, <- list_fmap_compose. apply list_fmap_ext. intros ? r _. simpl.
      apply take_1_drop_take. assumption.
  - rewrite lookup_ge_None_2 by (rewrite length_range; lia). reflexivity.
Qed.

(** An input without time steps makes [forward] raise. *)
Lemma forward_outputs_no_steps self (input : ndarray R) (future : Z) :
  shape1 input = 0%nat -> forward_outputs zero self input future = Raise RuntimeError.
Proof.
  intros HN. unfold forward_outputs. rewrite chunk_dim1_no_steps by assumption.
  reflexivity.
Qed.

(** The forward pass never looks ahead: two batches of the same size whose
    first [n] columns are the same get the same first [n] predictions,
    whatever follows in either input and whatever the two horizons are. *)
Theorem forward_is_causal self (input input' : ndarray R) (future future' : Z)
    (n : nat) (outs outs' : list (list R)) :
  shape0 input = shape0 input' ->
  (n <= shape1 input)%nat -> (n <= shape1 input')%nat ->
  take n <$> rows input = take n <$> rows input' ->
  forward_outputs zero self input future = Ok outs ->
  forward_outputs zero self input' future' = Ok outs' ->
  take n outs = take n outs'.
Proof.
  intros HB Hn Hn' Hrows Houts Houts'.
  destruct (decide (shape1 input = 0%nat)) as [HN|HN].
  { rewrite forward_outputs_no_steps in Houts by assumption. discriminate. }
  destruct (decide (shape1 input' = 0%nat)) as [HN'|HN'].
  { rewrite forward_outputs_no_steps in Houts' by assumption. discriminate. }
  destruct (forward_outputs_spec zero self input future ltac:(lia)) as (o & _ & Hfwd).
  destruct (forward_outputs_spec zero self input' future' ltac:(lia)) as (o' & _ & Hfwd').
  rewrite Hfwd in Houts. rewrite Hfwd' in Houts'.
  injection Houts as <-. injection Houts' as <-.
  rewrite !take_app_le by (rewrite unroll_length, time_steps_length; lia).
  rewrite !unroll_take, <- HB.
  rewrite (time_steps_prefix input input' n) by assumption. reflexivity.
Qed.

(** Asking for a longer horizon only adds predictions at the end: the
    predictions for [future] are the first [N + future] ones of those for any
    [future' >= future], in the list [outputs] and in the returned tensor. *)
Theorem forward_extends_with_future self (input : ndarray R) (future future' : Z)
    (outs' : list (list R)) :
  0 <= future <= future' ->
  forward_outputs zero self input future' = Ok outs' ->
  forward_outputs zero self input future
  = Ok (take (shape1 input + Z.to_nat future) outs') /\
  exists y y' : ndarray R,
    forward zero self input future = Ok y /\
    forward zero self input future' = Ok y' /\
    shape1 y = (shape1 input + Z.to_nat future)%nat /\
    forall b j : nat, (j < shape1 input + Z.to_nat future)%nat ->
      entry y b j = entry y' b j.
Proof.
  intros Hf Houts'.
  destruct (decide (shape1 input = 0%nat)) as [HN|HN].
  { rewrite forward_outputs_no_steps in Houts' by assumption. discriminate. }
  destruct (forward_outputs_spec zero self input future ltac:(lia)) as (o & Hlast & Hfwd).
  destruct (forward_outputs_spec zero self input future' ltac:(lia)) as (o' & Hlast' & Hfwd').
  rewrite Hlast in Hlast'. injection Hlast' as <-.
  rewrite Hfwd' in Houts'. injection Houts' as Houts'.
  assert (forward_outputs zero self input future
          = Ok (take (shape1 input + Z.to_nat future) outs')) as Hprefix.
  { rewrite Hfwd, <- Houts'. f_equal.
    rewrite take_app_ge by (rewrite unroll_length, time_steps_length; lia).
    rewrite unroll_length, time_steps_length.
    replace (shape1 input + Z.to_nat future - shape1 input)%nat
      with (Z.to_nat future) by lia.
    rewrite autoregress_take by lia. reflexivity. }
  split; [exact Hprefix|].
  destruct (forward_spec zero self input future ltac:(lia))
    as (outs & y & Houts & Hy & _ & _ & Hs1 & Hrows & Hent).
  destruct (forward_spec zero self input future' ltac:(lia))
    as (outs2 & y' & Houts2 & Hy' & _ & _ & _ & Hrows' & Hent').
  rewrite Hprefix in Houts. injection Houts as <-.
  rewrite Hfwd', Houts' in Houts2. injection Houts2 as <-.
  exists y, y'. split; [exact Hy|]. split; [exact Hy'|]. split; [exact Hs1|].
  intros b j Hj. unfold entry.
  destruct (decide (b < shape0 input)%nat) as [Hb|Hb].
  - destruct (Hent b Hb) as (row & -> & _ & Hrow).
    destruct (Hent' b Hb) as (row' & -> & _ & Hrow').
    simpl. rewrite Hrow, Hrow', lookup_take_lt by lia. reflexivity.
  - rewrite !lookup_ge_None_2 by lia. reflexivity.
Qed.

(** A negative horizon is not rejected: it behaves as [future = 0]. *)
Theorem forward_negative_future self (input : ndarray R) (future : Z) :
  future <= 0 -> forward zero self input future = forward zero self input 0.
Proof.
  intros Hf. unfold forward, forward_outputs.
  destruct (chunk_dim1 input (Z.of_nat (shape1 input))) as [chunks|e]; [|reflexivity].
  simpl. destruct (input_loop self chunks (initial_state zero input)) as [st|e];
    [|reflexivity].
  simpl. rewrite !future_loop_none by lia. reflexivity.
Qed.
End ForwardExtras.

(** ** The training loop: stale state, one more epoch, empty input *)

Lemma arange_succ (lo n : Z) : 0 <= n -> arange lo (lo + n + 1) = arange lo (lo + n) ++ [lo + n].
Proof.
  intros Hn. unfold arange.
  replace (lo + n + 1 - lo) with (n + 1) by lia.
  replace (lo + n - lo) with n by lia.
  rewrite range_succ, fmap_app by assumption. reflexivity.
Qed.

Lemma arange_length (lo hi : Z) : length (arange lo hi) = Z.to_nat (hi - lo).
Proof. unfold arange. rewrite length_fmap, length_range. reflexivity. Qed.

Lemma arange_cons (lo hi : Z) :
  lo < hi -> exists es, arange lo hi = lo :: es.
Proof.
  intros Hlt. unfold arange, range.
  replace (Z.to_nat (hi - lo)) with (S (Z.to_nat (hi - lo - 1))) by lia.
  simpl. eexists. f_equal. lia.
Qed.

Section TrainingExtras.
Context {R : Type} (zero : R) {Params : Type} `{!Cells R Params}.
Context {Grad OptState : Type}.
Context (criteria : ndarray R -> ndarray R -> R).
Context (loss_gradient : Params -> ndarray R -> ndarray R -> Grad).
Context (grad_zero : Grad) (grad_add : Grad -> Grad -> Grad).
Context (adam_step : OptState -> Params -> Grad -> Params * OptState).
Implicit Types (nb : notebook (R := R) (Params := Params)
                       (Grad := Grad) (OptState := OptState)).

Abbreviation epoch_body_ := (epoch_body zero criteria loss_gradient grad_zero grad_add adam_step).
Abbreviation train_ := (train zero criteria loss_gradient grad_zero grad_add adam_step).

(** An epoch that returns has added exactly one loss. *)
Lemma epoch_body_losses (input_t target_t : ndarray R) nb nb' (epoch : Z) :
  epoch_body_ input_t target_t nb epoch = Ok nb' ->
  exists x : R, losses nb' = losses nb ++ [x].
Proof.
  unfold epoch_body, call_pred.
  destruct (forward zero (pred nb) input_t 0) as [out|e]; simpl; [|discriminate].
  intros Hok. injection Hok as <-. simpl. eauto.
Qed.

Lemma epochs_losses (input_t target_t : ndarray R) (es : list Z) nb nb' :
  for_each (epoch_body_ input_t target_t) es nb = Ok nb' ->
  exists xs : list R, losses nb' = losses nb ++ xs /\ length xs = length es.
Proof.
  revert nb. induction es as [|e es IH]; intros nb; simpl.
  - intros Hok. injection Hok as <-. exists []. rewrite app_nil_r. auto.
  - destruct (epoch_body_ input_t target_t nb e) as [nb1|err] eqn:Hbody; simpl;
      [|discriminate].
    intros Hrun. destruct (epoch_body_losses _ _ _ _ _ Hbody) as [x Hx].
    destruct (IH _ Hrun) as (xs & Hxs & Hlen).
    exists (x :: xs). rewrite Hxs, Hx, <- app_assoc. simpl. auto.
Qed.

(** The first epoch overwrites the gradient accumulators and the loss
    history: training for at least one epoch from two notebooks that differ
    only in these gives the same result. *)
Theorem training_ignores_stale_state (n_epochs : Z) (input_t target_t : ndarray R) nb nb2 :
  1 <= n_epochs ->
  pred nb = pred nb2 -> optimizer nb = optimizer nb2 ->
  grad_enabled nb = grad_enabled nb2 -> log nb = log nb2 ->
  train_ n_epochs input_t target_t nb = train_ n_epochs input_t target_t nb2.
Proof.
  intros Hn Hpred Hopt Hmode Hlog. unfold train.
  destruct (arange_cons 1 (n_epochs + 1) ltac:(lia)) as [es ->].
  cbn [for_each].
  match goal with
  | |- bind ?a _ = bind ?b _ => assert (a = b) as ->; [|reflexivity]
  end.
  unfold epoch_body, call_pred. cbn [pred].
  rewrite Hpred. destruct (forward zero (pred nb2) input_t 0) as [out|e]; [|reflexivity].
  cbn. rewrite ?Hopt, ?Hmode, ?Hlog. reflexivity.
Qed.

(** Training for one more epoch is training, then one epoch: the loss it
    records is that of the parameters before its update, and the update uses
    the gradient of that epoch alone. *)
Theorem training_one_more_epoch (n_epochs : Z) (input_t target_t : ndarray R) nb :
  0 <= n_epochs -> (0 < shape1 input_t)%nat ->
  exists nb' (out : ndarray R) nb'',
    train_ n_epochs input_t target_t nb = Ok nb' /\
    forward zero (pred nb') input_t 0 = Ok out /\
    train_ (n_epochs + 1) input_t target_t nb = Ok nb'' /\
    losses nb'' = losses nb' ++ [criteria out target_t] /\
    grad nb'' = grad_add grad_zero (loss_gradient (pred nb') input_t target_t) /\
    (pred nb'', optimizer nb'') = adam_step (optimizer nb') (pred nb') (grad nb'').
Proof.
  intros Hn HN. unfold train.
  set (nb0 := {| pred := pred nb; grad := grad nb; optimizer := optimizer nb;
                 losses := []; grad_enabled := grad_enabled nb; log := log nb |}).
  destruct (epochs_spec zero criteria loss_gradient grad_zero grad_add adam_step
              input_t target_t (arange 1 (n_epochs + 1)) nb0 HN) as (nb' & Hrun & _).
  destruct (epoch_body_spec zero criteria loss_gradient grad_zero grad_add adam_step
              input_t target_t nb' (1 + n_epochs) HN)
    as (out & nb'' & Hout & Hbody & _ & Hloss & _ & Hgrad & Hstep).
  exists nb', out, nb''. split; [exact Hrun|]. split; [exact Hout|].
  split; [|auto].
  replace (n_epochs + 1 + 1) with (1 + n_epochs + 1) by lia.
  rewrite arange_succ by lia. rewrite for_each_app.
  replace (1 + n_epochs) with (n_epochs + 1) at 1 by lia.
  rewrite Hrun. cbn [bind for_each]. rewrite Hbody. reflexivity.
Qed.

(** The first loss of the history is that of the parameters training
    starts from. *)
Theorem training_first_loss (n_epochs : Z) (input_t target_t : ndarray R) nb :
  1 <= n_epochs -> (0 < shape1 input_t)%nat ->
  exists (out : ndarray R) nb',
    forward zero (pred nb) input_t 0 = Ok out /\
    train_ n_epochs input_t target_t nb = Ok nb' /\
    losses nb' !! 0%nat = Some (criteria out target_t).
Proof.
  intros Hn HN. unfold train.
  set (nb0 := {| pred := pred nb; grad := grad nb; optimizer := optimizer nb;
                 losses := []; grad_enabled := grad_enabled nb; log := log nb |}).
  destruct (arange_cons 1 (n_epochs + 1) ltac:(lia)) as [es ->].
  destruct (epoch_body_spec zero criteria loss_gradient grad_zero grad_add adam_step
              input_t target_t nb0 1 HN)
    as (out & nb1 & Hout & Hbody & _ & Hloss & _).
  destruct (epochs_spec zero criteria loss_gradient grad_zero grad_add adam_step
              input_t target_t es nb1 HN) as (nb' & Hrun & _).
  exists out, nb'. split; [exact Hout|].
  cbn [for_each]. rewrite Hbody. cbn [bind]. split; [exact Hrun|].
  destruct (epochs_losses _ _ _ _ _ Hrun) as (xs & -> & _).
  rewrite Hloss. reflexivity.
Qed.

(** On a training input without time steps the first epoch raises; with no
    epoch to run the loop only empties the loss history. *)
Theorem training_on_empty_input (n_epochs : Z) (input_t target_t : ndarray R) nb :
  shape1 input_t = 0%nat ->
  (1 <= n_epochs -> train_ n_epochs input_t target_t nb = Raise RuntimeError) /\
  (n_epochs <= 0 ->
   train_ n_epochs input_t target_t nb
   = Ok {| pred := pred nb; grad := grad nb; optimizer := optimizer nb;
           losses := []; grad_enabled := grad_enabled nb; log := log nb |}).
Proof.
  intros HN. unfold train. split; intros Hn.
  - destruct (arange_cons 1 (n_epochs + 1) ltac:(lia)) as [es ->].
    cbn [for_each]. unfold epoch_body at 1, call_pred, forward.
    rewrite forward_outputs_no_steps by assumption. reflexivity.
  - unfold arange. rewrite range_nonpos by lia. reflexivity.
Qed.

(** The arrays of the windowing cell fit the training loop: the prediction
    for the [input] array has the shape of the [output] array, its rows
    match that shape, and training on the pair runs all its epochs. *)
Theorem training_on_windows (source : list R) (inp out : ndarray R) (self : Params)
    (n_epochs : Z) nb :
  windowing zero source = Ok (inp, out) ->
  (exists y : ndarray R,
     forward zero self inp 0 = Ok y /\
     shape0 y = shape0 out /\ shape1 y = shape1 out /\ well_formed y) /\
  (exists nb',
     train_ n_epochs inp out nb = Ok nb' /\ length (losses nb') = Z.to_nat n_epochs).
Proof.
  intros Hok.
  destruct (windowing_ok_shapes zero source inp out Hok) as (HB & HN & HN' & _ & _).
  split.
  - destruct (forward_spec zero self inp 0 ltac:(lia))
      as (outs & y & _ & Hy & _ & Hs0 & Hs1 & Hrows & Hent).
    exists y. split; [exact Hy|]. split; [lia|]. split; [simpl in Hs1; lia|].
    split; [lia|].
    apply Forall_lookup. intros b row Hrow.
    assert (b < shape0 inp)%nat as Hb
      by (rewrite <- Hrows; apply lookup_lt_is_Some; eauto).
    destruct (Hent b Hb) as (row' & Hrow' & Hlen & _).
    rewrite Hrow in Hrow'. injection Hrow' as <-. lia.
  - unfold train.
    destruct (epochs_spec zero criteria loss_gradient grad_zero grad_add adam_step
                inp out (arange 1 (n_epochs + 1))
                {| pred := pred nb; grad := grad nb; optimizer := optimizer nb;
                   losses := []; grad_enabled := grad_enabled nb; log := log nb |}
                ltac:(lia)) as (nb' & Hrun & _ & Hloss & _).
    exists nb'. split; [exact Hrun|].
    rewrite Hloss, arange_length. simpl. lia.
Qed.

(** The plot of the loss history never fails on its dimension check after
    a training run: there is one abscissa per recorded loss. *)
Theorem loss_plot_after_training (n_epochs : Z) (input_t target_t : ndarray R) nb nb' :
  train_ n_epochs input_t target_t nb = Ok nb' ->
  loss_plot_cell n_epochs (losses nb') = Ok tt.
Proof.
  unfold train. intros Hrun.
  destruct (epochs_losses _ _ _ _ _ Hrun) as (xs & Hxs & Hlen).
  unfold loss_plot_cell, plt_plot.
  rewrite decide_True; [reflexivity|].
  rewrite Hxs, !arange_length. simpl. rewrite Hlen, arange_length. lia.
Qed.
End TrainingExtras.

(** ** The forecast cell: short series, horizons, locality, the plot *)

Section ForecastExtras.
Context {R : Type} (zero : R) {Params : Type} `{!Cells R Params}.
Context {Grad OptState : Type}.
Implicit Types (nb : notebook (R := R) (Params := Params)
                       (Grad := Grad) (OptState := OptState)).

(** The inference input: the last [sample_size] observations when the
    series has that many, an exception otherwise. *)
Lemma final_input_spec (source : list R) :
  reshape_1 (py_slice_from source (- sample_size)) sample_size
  = if decide (sample_size <= Z.of_nat (length source)) then
      Ok {| shape0 := 1; shape1 := Z.to_nat sample_size;
            rows := [drop (length source - Z.to_nat sample_size) source] |}
    else Raise ValueError.
Proof.
  assert (0 < sample_size) as HW by (unfold sample_size; lia).
  unfold reshape_1. destruct (decide (sample_size <= Z.of_nat (length source))) as [HL|HL].
  - assert (py_slice_from source (- sample_size)
            = drop (length source - Z.to_nat sample_size) source) as ->.
    { unfold py_slice_from. rewrite adjust_index_neg by lia. f_equal. lia. }
    rewrite decide_True by (rewrite length_drop; lia). reflexivity.
  - rewrite decide_False; [reflexivity|].
    rewrite py_slice_from_length, adjust_index_clamp by lia. lia.
Qed.

(** The forecast cell on a series with at least [sample_size]
    observations, for any horizon. *)
Lemma forecast_with_spec (days : Z) (source : list R) nb :
  sample_size <= Z.of_nat (length source) ->
  let final_input :=
    {| shape0 := 1; shape1 := Z.to_nat sample_size;
       rows := [drop (length source - Z.to_nat sample_size) source] |} in
  exists (outs : list (list R)) (y : ndarray R) (y0 : list R),
    forward_outputs zero (pred nb) final_input days = Ok outs /\
    forward zero (pred nb) final_input days = Ok y /\
    rows y !! 0%nat = Some y0 /\
    length y0 = (Z.to_nat sample_size + Z.to_nat days)%nat /\
    (forall j : nat, y0 !! j = outs !! j ≫= (.!! 0%nat)) /\
    forecast_with zero days source nb
    = Ok (set_grad_enabled (grad_enabled nb)
            (record_event (EvForward days false) (set_grad_enabled false nb)),
          py_slice_from y0 (- days)).
Proof.
  intros HL final_input.
  destruct (forward_spec zero (pred nb) final_input days) as
    (outs & y & Houts & Hy & _ & _ & _ & _ & Hent); [cbn [shape1 final_input]; unfold sample_size; lia|].
  destruct (Hent 0%nat ltac:(simpl; lia)) as (y0 & Hy0 & Hy0len & Hrow).
  change (shape1 final_input) with (Z.to_nat sample_size) in Hy0len.
  exists outs, y, y0. repeat (split; [assumption|]).
  unfold forecast_with. rewrite final_input_spec, decide_True by assumption.
  cbn [bind]. unfold call_pred. cbn [pred set_grad_enabled]. fold final_input.
  rewrite Hy. cbn [bind fst snd]. rewrite Hy0. reflexivity.
Qed.

(** With fewer than [sample_size] observations the forecast cell raises
    when it reshapes the inference input; the predictor is not called. *)
Theorem forecast_short_series (days : Z) (source : list R) nb :
  Z.of_nat (length source) < sample_size ->
  forecast_with zero days source nb = Raise ValueError.
Proof.
  intros HL. unfold forecast_with.
  rewrite final_input_spec, decide_False by lia. reflexivity.
Qed.

(** A horizon of zero does not give an empty forecast: [y[0, -0:]] is the
    whole row, the 250 predictions over the observed steps.  A negative
    horizon [days] drops the first [-days] of them. *)
Theorem forecast_nonpositive_horizon (days : Z) (source : list R) nb :
  sample_size <= Z.of_nat (length source) -> days <= 0 ->
  let final_input :=
    {| shape0 := 1; shape1 := Z.to_nat sample_size;
       rows := [drop (length source - Z.to_nat sample_size) source] |} in
  exists (y : ndarray R) (y0 f : list R) nb',
    forward zero (pred nb) final_input days = Ok y /\
    rows y !! 0%nat = Some y0 /\ length y0 = Z.to_nat sample_size /\
    forecast_with zero days source nb = Ok (nb', f) /\
    f = drop (Z.to_nat (- days)) y0 /\
    length f = Z.to_nat (sample_size + days) /\
    (days = 0 -> f = y0).
Proof.
  intros HL Hd final_input.
  assert (0 < sample_size) as HW by (unfold sample_size; lia).
  destruct (forecast_with_spec days source nb HL) as (outs & y & y0 & _ & Hy & Hy0 & Hlen & _ & Hf).
  fold final_input in Hy.
  replace (Z.to_nat days) with 0%nat in Hlen by lia. rewrite Nat.add_0_r in Hlen.
  assert (py_slice_from y0 (- days) = drop (Z.to_nat (- days)) y0) as Hslice.
  { unfold py_slice_from, adjust_index.
    destruct (- days <? 0) eqn:E1; [lia|].
    destruct (Z.of_nat (length y0) <=? - days) eqn:E2; [|reflexivity].
    rewrite !drop_ge by lia. reflexivity. }
  exists y, y0, (drop (Z.to_nat (- days)) y0). eexists.
  split; [exact Hy|]. split; [exact Hy0|]. split; [exact Hlen|].
  split; [rewrite Hf, Hslice; reflexivity|]. split; [reflexivity|].
  split; [rewrite length_drop; lia|].
  intros ->. reflexivity.
Qed.

(** The forecast reads only the last [sample_size] observations: two
    series ending with the same 250 values give the same forecast. *)
Theorem forecast_reads_only_tail (days : Z) (older older' recent : list R) nb :
  Z.of_nat (length recent) = sample_size ->
  forecast_with zero days (older ++ recent) nb
  = forecast_with zero days (older' ++ recent) nb.
Proof.
  intros Hlen. unfold forecast_with.
  assert (forall pre : list R, py_slice_from (pre ++ recent) (- sample_size) = recent)
    as Htail.
  { intros pre. unfold py_slice_from. rewrite length_app.
    rewrite adjust_index_neg by (unfold sample_size in *; lia).
    replace (Z.to_nat (- sample_size + Z.of_nat (length pre + length recent)))
      with (length pre) by lia.
    apply drop_app_length. }
  rewrite !Htail. reflexivity.
Qed.

(** The forecast is made of the autoregressive predictions alone: its
    entry [j] is the prediction at time index [sample_size + j] of the one
    sequence of the batch. *)
Theorem forecast_is_autoregressive (days : Z) (source : list R) nb :
  sample_size <= Z.of_nat (length source) -> 0 < days ->
  let final_input :=
    {| shape0 := 1; shape1 := Z.to_nat sample_size;
       rows := [drop (length source - Z.to_nat sample_size) source] |} in
  exists (outs : list (list R)) (f : list R) nb',
    forward_outputs zero (pred nb) final_input days = Ok outs /\
    length outs = (Z.to_nat sample_size + Z.to_nat days)%nat /\
    forecast_with zero days source nb = Ok (nb', f) /\
    length f = Z.to_nat days /\
    forall j : nat,
      f !! j = outs !! (Z.to_nat sample_size + j)%nat ≫= (.!! 0%nat).
Proof.
  intros HL Hd final_input.
  assert (0 < sample_size) as HW by (unfold sample_size; lia).
  destruct (forecast_with_spec days source nb HL)
    as (outs & y & y0 & Houts & Hy & Hy0 & Hlen & Hrow & Hf).
  fold final_input in Houts, Hy.
  destruct (forward_spec zero (pred nb) final_input days) as
    (outs2 & _ & Houts2 & _ & Hlen2 & _); [cbn [shape1 final_input]; unfold sample_size; lia|].
  rewrite Houts in Houts2. injection Houts2 as <-.
  assert (py_slice_from y0 (- days) = drop (Z.to_nat sample_size) y0) as Hslice.
  { unfold py_slice_from. rewrite adjust_index_neg by lia. f_equal. lia. }
  exists outs, (drop (Z.to_nat sample_size) y0). eexists.
  split; [exact Houts|]. split; [exact Hlen2|].
  split; [rewrite Hf, Hslice; reflexivity|].
  split; [rewrite length_drop; lia|].
  intros j. rewrite lookup_drop. apply Hrow.
Qed.

(** After the forecast cell has returned, the plot of the forecast passes
    its dimension checks exactly when the horizon is positive (or so
    negative that nothing is left to plot): with [days = 0] the 250 returned
    values meet an empty range of abscissas and the plot raises. *)
Theorem forecast_plot_after_forecast (days : Z) (source f : list R) nb nb' :
  forecast_with zero days source nb = Ok (nb', f) ->
  forecast_plot_cell days source f = Ok tt <-> (0 < days \/ days <= - sample_size).
Proof.
  intros Hok.
  assert (0 < sample_size) as HW by (unfold sample_size; lia).
  destruct (decide (sample_size <= Z.of_nat (length source))) as [HL|HL].
  2:{ unfold forecast_with in Hok.
      rewrite final_input_spec, decide_False in Hok by assumption. discriminate. }
  destruct (forecast_with_spec days source nb HL)
    as (outs & y & y0 & _ & _ & _ & Hlen & _ & Hf).
  rewrite Hf in Hok. injection Hok as _ <-.
  unfold forecast_plot_cell, plt_plot.
  rewrite decide_True.
  2:{ rewrite arange_length, py_slice_from_length, adjust_index_neg by lia. lia. }
  cbn [bind].
  assert (length (py_slice_from y0 (- days))
          = if decide (0 < days) then Z.to_nat days else Z.to_nat (sample_size + days))
    as Hflen.
  { rewrite py_slice_from_length. unfold adjust_index.
    destruct (decide (0 < days)) as [Hd|Hd];
      destruct (- days <? 0) eqn:E1; try lia;
      [destruct (- days + Z.of_nat (length y0) <? 0) eqn:E2; lia|].
    destruct (Z.of_nat (length y0) <=? - days) eqn:E3; lia. }
  rewrite arange_length, Hflen.
  destruct (decide (0 < days)) as [Hd|Hd].
  - rewrite decide_True by lia. split; [left; assumption | reflexivity].
  - destruct (decide (days <= - sample_size)) as [Hd2|Hd2].
    + rewrite decide_True by lia. split; [right; assumption | reflexivity].
    + rewrite decide_False by lia. split; [discriminate | lia].
Qed.
End ForecastExtras.

(** ** The series read from the table *)

Lemma concat_singletons {A : Type} (rs : list (list A)) :
  Forall (fun r => length r = 1%nat) rs ->
  length (concat rs) = length rs /\
  forall i : nat, concat rs !! i = rs !! i ≫= (.!! 0%nat).
Proof.
  induction 1 as [|r rs Hr _ [IHlen IHlook]]; simpl.
  - split; [reflexivity|]. intros i. rewrite lookup_nil. reflexivity.
  - destruct r as [|x [|? ?]]; simpl in Hr; try discriminate.
    simpl. split; [f_equal; exact IHlen|].
    intros [|i]; simpl; [reflexivity | apply IHlook].
Qed.

(** From a well-formed table of one column the series takes one element
    per row, in row order; a table with rows of several columns is rejected
    by the reshape. *)
Theorem source_of_one_column {A : Type} (values : ndarray A) :
  well_formed values ->
  (shape1 values = 1%nat ->
   exists source : list A,
     source_of values = Ok source /\
     length source = shape0 values /\
     forall i : nat, source !! i = entry values i 0) /\
  ((1 < shape1 values)%nat -> (0 < shape0 values)%nat ->
   source_of values = Raise ValueError).
Proof.
  intros [Hrows Hall]. unfold source_of. split.
  - intros H1. rewrite H1 in Hall.
    destruct (concat_singletons (rows values) Hall) as [Hlen Hlook].
    rewrite decide_True by lia.
    eexists. split; [reflexivity|]. split; [lia|]. exact Hlook.
  - intros H1 H0. rewrite decide_False by nia. reflexivity.
Qed.

(** ** The further properties on concrete inputs *)

Lemma windowing_tiles_series_witness :
  0 < 250 /\ 2 <= Z.of_nat (length (ramp 502)) mod 250 /\
  exists inp out : ndarray Z,
    windowing_with 0 250 (ramp 502) = Ok (inp, out) /\
    concat (reverse (rows inp))
    = take (Z.to_nat (250 * (Z.of_nat (length (ramp 502)) / 250)))
        (drop (Z.to_nat (Z.of_nat (length (ramp 502)) mod 250 - 2)) (ramp 502)) /\
    concat (reverse (rows out))
    = take (Z.to_nat (250 * (Z.of_nat (length (ramp 502)) / 250)))
        (drop (Z.to_nat (Z.of_nat (length (ramp 502)) mod 250 - 1)) (ramp 502)).
Proof.
  split; [lia|]. split; [vm_compute; discriminate|].
  apply (windowing_tiles_series 0 250 (ramp 502)).
  - lia.
  - vm_compute. discriminate.
Defined.

Lemma windowing_ignores_head_and_last_witness :
  length (ramp 253) = length (<[0%nat := 77]> (<[252%nat := 99]> (ramp 253))) /\
  (let h := Z.to_nat (Z.of_nat (length (ramp 253)) mod sample_size - 2) in
   take (length (ramp 253) - 1 - h) (drop h (ramp 253))
   = take (length (ramp 253) - 1 - h)
       (drop h (<[0%nat := 77]> (<[252%nat := 99]> (ramp 253))))) /\
  windowing 0 (ramp 253) = windowing 0 (<[0%nat := 77]> (<[252%nat := 99]> (ramp 253))).
Proof.
  split; [vm_compute; reflexivity|]. split; [vm_compute; reflexivity|].
  apply (windowing_ignores_head_and_last 0 (ramp 253)
           (<[0%nat := 77]> (<[252%nat := 99]> (ramp 253)))).
  - vm_compute. reflexivity.
  - vm_compute. reflexivity.
Defined.

Lemma training_on_windows_witness :
  windowing 0 (ramp 252)
  = Ok (filled 0 250 (input_window 250 (ramp 252)) 1 1,
        filled 0 250 (output_window 250 (ramp 252)) 1 1) /\
  (exists y : ndarray Z,
     forward 0 1 (filled 0 250 (input_window 250 (ramp 252)) 1 1) 0 = Ok y /\
     shape0 y = shape0 (filled 0 250 (output_window 250 (ramp 252)) 1 1) /\
     shape1 y = shape1 (filled 0 250 (output_window 250 (ramp 252)) 1 1) /\
     well_formed y) /\
  (exists nb',
     toy_train 2 (filled 0 250 (input_window 250 (ramp 252)) 1 1)
       (filled 0 250 (output_window 250 (ramp 252)) 1 1) (toy_notebook 1) = Ok nb' /\
     length (losses nb') = Z.to_nat 2).
Proof.
  split; [vm_compute; reflexivity|].
  apply (training_on_windows 0 toy_loss toy_gradient 0 Z.add toy_adam (ramp 252)).
  vm_compute. reflexivity.
Defined.

Lemma forward_is_causal_witness :
  exists outs outs' : list (list Z),
    forward_outputs 0 5 toy_input 1 = Ok outs /\
    forward_outputs 0 5 toy_input' 0 = Ok outs' /\
    shape0 toy_input = shape0 toy_input' /\
    (2 <= shape1 toy_input)%nat /\ (2 <= shape1 toy_input')%nat /\
    take 2 <$> rows toy_input = take 2 <$> rows toy_input' /\
    take 2 outs = take 2 outs'.
Proof.
  eexists _, _. split; [vm_compute; reflexivity|]. split; [vm_compute; reflexivity|].
  split; [reflexivity|]. split; [simpl; lia|]. split; [simpl; lia|].
  split; [reflexivity|].
  apply (forward_is_causal 0 5 toy_input toy_input' 1 0 2).
  - reflexivity.
  - simpl. lia.
  - simpl. lia.
  - reflexivity.
  - vm_compute. reflexivity.
  - vm_compute. reflexivity.
Defined.

Lemma forward_extends_with_future_witness :
  exists outs' : list (list Z),
    0 <= 1 <= 3 /\
    forward_outputs 0 5 toy_input 3 = Ok outs' /\
    forward_outputs 0 5 toy_input 1 = Ok (take (shape1 toy_input + Z.to_nat 1) outs') /\
    exists y y' : ndarray Z,
      forward 0 5 toy_input 1 = Ok y /\
      forward 0 5 toy_input 3 = Ok y' /\
      shape1 y = (shape1 toy_input + Z.to_nat 1)%nat /\
      forall b j : nat, (j < shape1 toy_input + Z.to_nat 1)%nat ->
        entry y b j = entry y' b j.
Proof.
  eexists. split; [lia|]. split; [vm_compute; reflexivity|].
  apply (forward_extends_with_future 0 5 toy_input 1 3).
  - lia.
  - vm_compute. reflexivity.
Defined.

Lemma forward_negative_future_witness :
  -3 <= 0 /\ forward 0 5 toy_input (-3) = forward 0 5 toy_input 0.
Proof. split; [lia|]. apply (forward_negative_future 0 5 toy_input (-3)). lia. Defined.

Lemma training_ignores_stale_state_witness :
  1 <= 2 /\
  toy_train 2 toy_input toy_input (toy_notebook 1)
  = toy_train 2 toy_input toy_input
      {| pred := 1; grad := 1000; optimizer := 0; losses := [5; 6];
         grad_enabled := true; log := [] |}.
Proof.
  split; [lia|].
  apply (training_ignores_stale_state 0 toy_loss toy_gradient 0 Z.add toy_adam 2
           toy_input toy_input (toy_notebook 1)
           {| pred := 1; grad := 1000; optimizer := 0; losses := [5; 6];
              grad_enabled := true; log := [] |});
    [lia | reflexivity | reflexivity | reflexivity | reflexivity].
Defined.

Lemma training_one_more_epoch_witness :
  0 <= 1 /\ (0 < shape1 toy_input)%nat /\
  exists nb' (out : ndarray Z) nb'',
    toy_train 1 toy_input toy_input (toy_notebook 1) = Ok nb' /\
    forward 0 (pred nb') toy_input 0 = Ok out /\
    toy_train (1 + 1) toy_input toy_input (toy_notebook 1) = Ok nb'' /\
    losses nb'' = losses nb' ++ [toy_loss out toy_input] /\
    grad nb'' = Z.add 0 (toy_gradient (pred nb') toy_input toy_input) /\
    (pred nb'', optimizer nb'') = toy_adam (optimizer nb') (pred nb') (grad nb'').
Proof.
  split; [lia|]. split; [simpl; lia|].
  apply (training_one_more_epoch 0 toy_loss toy_gradient 0 Z.add toy_adam 1
           toy_input toy_input (toy_notebook 1)); [lia | simpl; lia].
Defined.

Lemma training_first_loss_witness :
  1 <= 2 /\ (0 < shape1 toy_input)%nat /\
  exists (out : ndarray Z) nb',
    forward 0 (pred (toy_notebook 1)) toy_input 0 = Ok out /\
    toy_train 2 toy_input toy_input (toy_notebook 1) = Ok nb' /\
    losses nb' !! 0%nat = Some (toy_loss out toy_input).
Proof.
  split; [lia|]. split; [simpl; lia|].
  apply (training_first_loss 0 toy_loss toy_gradient 0 Z.add toy_adam 2
           toy_input toy_input (toy_notebook 1)); [lia | simpl; lia].
Defined.

Lemma training_on_empty_input_witness :
  shape1 toy_empty_input = 0%nat /\
  (1 <= 2 -> toy_train 2 toy_empty_input toy_empty_input (toy_notebook 1)
             = Raise RuntimeError) /\
  (2 <= 0 ->
   toy_train 2 toy_empty_input toy_empty_input (toy_notebook 1)
   = Ok {| pred := pred (toy_notebook 1); grad := grad (toy_notebook 1);
           optimizer := optimizer (toy_notebook 1); losses := [];
           grad_enabled := grad_enabled (toy_notebook 1); log := log (toy_notebook 1) |}).
Proof.
  split; [reflexivity|].
  apply (training_on_empty_input 0 toy_loss toy_gradient 0 Z.add toy_adam 2
           toy_empty_input toy_empty_input (toy_notebook 1)).
  reflexivity.
Defined.

Lemma loss_plot_after_training_witness :
  exists nb',
    toy_train 3 toy_input toy_input (toy_notebook 1) = Ok nb' /\
    loss_plot_cell 3 (losses nb') = Ok tt.
Proof.
  eexists. split; [vm_compute; reflexivity|].
  apply (loss_plot_after_training 0 toy_loss toy_gradient 0 Z.add toy_adam 3
           toy_input toy_input (toy_notebook 1)).
  vm_compute. reflexivity.
Defined.

Lemma forecast_short_series_witness :
  Z.of_nat (length (ramp 100)) < sample_size /\
  forecast_with 0 30 (ramp 100) (toy_notebook 1) = Raise ValueError.
Proof.
  split; [vm_compute; reflexivity|].
  apply (forecast_short_series 0 30 (ramp 100) (toy_notebook 1)).
  vm_compute. reflexivity.
Defined.

Lemma forecast_nonpositive_horizon_witness :
  sample_size <= Z.of_nat (length (ramp 300)) /\ 0 <= 0 /\
  let final_input :=
    {| shape0 := 1; shape1 := Z.to_nat sample_size;
       rows := [drop (length (ramp 300) - Z.to_nat sample_size) (ramp 300)] |} in
  exists (y : ndarray Z) (y0 f : list Z) nb',
    forward 0 (pred (toy_notebook 1)) final_input 0 = Ok y /\
    rows y !! 0%nat = Some y0 /\ length y0 = Z.to_nat sample_size /\
    forecast_with 0 0 (ramp 300) (toy_notebook 1) = Ok (nb', f) /\
    f = drop (Z.to_nat (- 0)) y0 /\
    length f = Z.to_nat (sample_size + 0) /\
    (0 = 0 -> f = y0).
Proof.
  split; [vm_compute; discriminate|]. split; [lia|].
  apply (forecast_nonpositive_horizon 0 0 (ramp 300) (toy_notebook 1)).
  - vm_compute. discriminate.
  - lia.
Defined.

Lemma forecast_reads_only_tail_witness :
  Z.of_nat (length (ramp 250)) = sample_size /\
  forecast_with 0 30 ([1; 2; 3] ++ ramp 250) (toy_notebook 1)
  = forecast_with 0 30 ([] ++ ramp 250) (toy_notebook 1).
Proof.
  split; [vm_compute; reflexivity|].
  apply (forecast_reads_only_tail 0 30 [1; 2; 3] [] (ramp 250) (toy_notebook 1)).
  vm_compute. reflexivity.
Defined.

Lemma forecast_is_autoregressive_witness :
  sample_size <= Z.of_nat (length (ramp 300)) /\ 0 < 30 /\
  let final_input :=
    {| shape0 := 1; shape1 := Z.to_nat sample_size;
       rows := [drop (length (ramp 300) - Z.to_nat sample_size) (ramp 300)] |} in
  exists (outs : list (list Z)) (f : list Z) nb',
    forward_outputs 0 (pred (toy_notebook 1)) final_input 30 = Ok outs /\
    length outs = (Z.to_nat sample_size + Z.to_nat 30)%nat /\
    forecast_with 0 30 (ramp 300) (toy_notebook 1) = Ok (nb', f) /\
    length f = Z.to_nat 30 /\
    forall j : nat,
      f !! j = outs !! (Z.to_nat sample_size + j)%nat ≫= (.!! 0%nat).
Proof.
  split; [vm_compute; discriminate|]. split; [lia|].
  apply (forecast_is_autoregressive 0 30 (ramp 300) (toy_notebook 1)).
  - vm_compute. discriminate.
  - lia.
Defined.

Lemma forecast_plot_after_forecast_witness :
  exists (f : list Z) nb',
    forecast_with 0 30 (ramp 300) (toy_notebook 1) = Ok (nb', f) /\
    (forecast_plot_cell 30 (ramp 300) f = Ok tt <-> (0 < 30 \/ 30 <= - sample_size)).
Proof.
  eexists _, _. split; [vm_compute; reflexivity|].
  eapply (forecast_plot_after_forecast 0 30 (ramp 300) _ (toy_notebook 1)).
  vm_compute. reflexivity.
Defined.

Lemma source_of_one_column_witness :
  well_formed toy_values /\
  (shape1 toy_values = 1%nat ->
   exists source : list Z,
     source_of toy_values = Ok source /\
     length source = shape0 toy_values /\
     forall i : nat, source !! i = entry toy_values i 0) /\
  ((1 < shape1 toy_values)%nat -> (0 < shape0 toy_values)%nat ->
   source_of toy_values = Raise ValueError).
Proof.
  split; [split; [reflexivity | repeat constructor]|].
  apply (source_of_one_column toy_values).
  split; [reflexivity | repeat constructor].
Defined.
